(** * Scandium: landing state machine, pose filters and velocity clamp

    A shallow embedding of the decision core of the Scandium precision-landing
    companion, and the properties its specification states about it.

    - [Fsm]       <- src/scandium/control/fsm.py  (class LandingFSM)
    - [Filtering] <- src/scandium/perception/pose/filtering.py
                     (classes ExpSmoother and KalmanFilter3D)
    - [Safety], [SafetyClamp]
                  <- src/scandium/control/safety.py
                     (SafetySupervisor.check, should_abort, clamp_velocity)
    - [Guidance]  <- src/scandium/control/guidance.py
                     (GuidanceController.compute_setpoint)
    - [Throttling] <- src/scandium/utils/throttling.py (class RateLimiter)

    Python objects become records, and a method becomes a function from the
    object (and its arguments) to the updated object and the returned value;
    a method that can raise returns an [option].  Log calls are dropped: they
    touch no attribute.

    Python floats are IEEE-754 binary64 numbers.  The state machine, the
    filters, the velocity clamp, the guidance law and the rate limiter are
    written over Rocq's primitive [float], so NaN, the infinities and
    rounding behave as in the interpreter and every definition evaluates;
    general statements about them rest on the specification of the primitive
    operations ([FloatAxioms], modules [FloatFacts] and [FloatOrder] below).
    The power operator [**] goes through the C library's [pow], which is not
    correctly rounded: it is a parameter of the definitions that use it.  The
    watchdog of the safety supervisor, which only subtracts and compares
    clock readings, is written over the real numbers. *)

From Stdlib Require Import Bool ZArith List String Floats Reals Lra Lia.
Import ListNotations.

Set Warnings "-inexact-float".

(* ------------------------------------------------------------------------- *)
(** ** Python comparison operators on floats *)

Module PyFloat.

(** [a > b], [a >= b], [a < b], [a <= b]: false as soon as one side is NaN. *)
Definition gt (a b : float) : bool := PrimFloat.ltb b a.
Definition ge (a b : float) : bool := PrimFloat.leb b a.
Definition lt (a b : float) : bool := PrimFloat.ltb a b.
Definition le (a b : float) : bool := PrimFloat.leb a b.

(** [a != b] on floats (NaN differs from everything, itself included). *)
Definition ne (a b : float) : bool := negb (PrimFloat.eqb a b).

End PyFloat.

(* ------------------------------------------------------------------------- *)
(** ** Python arithmetic that can raise: [**] and [/] on floats *)

Module PyArith.

Local Open Scope float_scope.

Section Libm.

(** The C library's [pow], which CPython calls for [x ** y] once the special
    operands (NaN, infinities, zeros, a base of 1) have been dealt with.  Its
    results are not correctly rounded and differ between platforms. *)
Variable libm_pow : float -> float -> float.

(** [x ** 2] on Python floats (CPython's float_pow with exponent 2.0): NaN
    and zero are returned without a library call, an infinity gives +inf,
    a negative base is replaced by its absolute value, 1.0 gives 1.0, and
    an infinite library result raises OverflowError ([None]); the library
    is taken to report no other error. *)
Definition pow_two (iv : float) : option float :=
  if is_nan iv then Some iv
  else if is_infinity iv then Some (abs iv)
  else if iv =? 0 then Some 0
  else
    let iv := abs iv in
    if iv =? 1 then Some 1
    else
      let ix := libm_pow iv 2 in
      if is_infinity ix then None else Some ix.

(** [x ** 0.5] on Python floats (float_pow with exponent 0.5).  A negative
    finite base gives a complex number, on which the comparison that follows
    in the callers raises TypeError; [None] stands for that and for
    OverflowError. *)
Definition pow_half (iv : float) : option float :=
  if is_nan iv then Some iv
  else if is_infinity iv then Some (abs iv)
  else if iv =? 0 then Some 0
  else if iv <? 0 then None
  else if iv =? 1 then Some 1
  else
    let ix := libm_pow iv 0.5 in
    if is_infinity ix then None else Some ix.

End Libm.

(** [a / b] on Python floats; [None] is ZeroDivisionError. *)
Definition truediv (a b : float) : option float :=
  if b =? 0 then None else Some (a / b).

(** A [pow] that is correctly rounded on the two exponents used. *)
Definition rounded_pow (x y : float) : float :=
  if y =? 2 then x * x else if y =? 0.5 then PrimFloat.sqrt x else nan.

End PyArith.

(* ------------------------------------------------------------------------- *)
(** ** control/fsm.py *)

Module Fsm.

(** class LandingState(Enum) *)
Inductive LandingState : Type :=
| INIT | IDLE | SEARCH | ACQUIRE | ALIGN | DESCEND
| TOUCHDOWN | ABORT | FAILSAFE.

Definition state_eqb (a b : LandingState) : bool :=
  match a, b with
  | INIT, INIT | IDLE, IDLE | SEARCH, SEARCH | ACQUIRE, ACQUIRE
  | ALIGN, ALIGN | DESCEND, DESCEND | TOUCHDOWN, TOUCHDOWN
  | ABORT, ABORT | FAILSAFE, FAILSAFE => true
  | _, _ => false
  end.

(** [s in (a, b, ...)] on enum members. *)
Definition state_in (s : LandingState) (l : list LandingState) : bool :=
  existsb (state_eqb s) l.

(** @dataclass SystemInputs *)
Record SystemInputs : Type := mkInputs {
  target_visible : bool;
  target_confidence : float;
  lateral_error_m : float;
  altitude_m : float;
  landability_score : float;
  mavlink_connected : bool;
  camera_connected : bool;
  arm_command : bool;
  abort_command : bool;
  timestamp : float;
  human_present : bool;
  variance : float
}.

(** The dataclass defaults; [timestamp] defaults to the wall clock at
    construction, so the caller supplies it here. *)
Definition default_inputs (now : float) : SystemInputs :=
  {| target_visible := false;
     target_confidence := 0.0;
     lateral_error_m := infinity;
     altitude_m := 100.0;
     landability_score := 1.0;
     mavlink_connected := true;
     camera_connected := true;
     arm_command := false;
     abort_command := false;
     timestamp := now;
     human_present := false;
     variance := 0.0 |}.

(** @dataclass SystemOutputs *)
Record SystemOutputs : Type := mkOutputs {
  state : LandingState;
  publish_landing_target : bool;
  abort_reason : option string;
  confidence_gain : float;
  state_changed : bool
}.

(** The attributes of a LandingFSM instance. *)
Record LandingFSM : Type := mkFSM {
  _state : LandingState;
  _prev_state : LandingState;
  _acquire_confidence : float;
  _align_error_m : float;
  _abort_landability : float;
  _touchdown_altitude_m : float;
  _max_variance : float;
  _consecutive_frames_for_acquire : Z;
  _target_lost_timeout_s : float;
  _consecutive_detections : Z;
  _last_target_time : option float;
  _abort_reason : option string
}.

(** LandingFSM.__init__ *)
Definition init (acquire_confidence align_error_m abort_landability
                 touchdown_altitude_m max_variance : float)
                (consecutive_frames_for_acquire : Z)
                (target_lost_timeout_s : float) : LandingFSM :=
  {| _state := INIT;
     _prev_state := INIT;
     _acquire_confidence := acquire_confidence;
     _align_error_m := align_error_m;
     _abort_landability := abort_landability;
     _touchdown_altitude_m := touchdown_altitude_m;
     _max_variance := max_variance;
     _consecutive_frames_for_acquire := consecutive_frames_for_acquire;
     _target_lost_timeout_s := target_lost_timeout_s;
     _consecutive_detections := 0%Z;
     _last_target_time := None;
     _abort_reason := None |}.

(** LandingFSM() with the default arguments. *)
Definition default_fsm : LandingFSM :=
  init 0.70 0.25 0.40 0.5 0.5 5%Z 2.0.

(** Attribute assignments [self._x = v]. *)
Definition set_state (self : LandingFSM) (v : LandingState) : LandingFSM :=
  mkFSM v (_prev_state self) (_acquire_confidence self) (_align_error_m self)
        (_abort_landability self) (_touchdown_altitude_m self)
        (_max_variance self) (_consecutive_frames_for_acquire self)
        (_target_lost_timeout_s self) (_consecutive_detections self)
        (_last_target_time self) (_abort_reason self).

Definition set_prev_state (self : LandingFSM) (v : LandingState) : LandingFSM :=
  mkFSM (_state self) v (_acquire_confidence self) (_align_error_m self)
        (_abort_landability self) (_touchdown_altitude_m self)
        (_max_variance self) (_consecutive_frames_for_acquire self)
        (_target_lost_timeout_s self) (_consecutive_detections self)
        (_last_target_time self) (_abort_reason self).

Definition set_consecutive_detections (self : LandingFSM) (v : Z) : LandingFSM :=
  mkFSM (_state self) (_prev_state self) (_acquire_confidence self)
        (_align_error_m self) (_abort_landability self)
        (_touchdown_altitude_m self) (_max_variance self)
        (_consecutive_frames_for_acquire self) (_target_lost_timeout_s self)
        v (_last_target_time self) (_abort_reason self).

Definition set_last_target_time (self : LandingFSM) (v : option float) : LandingFSM :=
  mkFSM (_state self) (_prev_state self) (_acquire_confidence self)
        (_align_error_m self) (_abort_landability self)
        (_touchdown_altitude_m self) (_max_variance self)
        (_consecutive_frames_for_acquire self) (_target_lost_timeout_s self)
        (_consecutive_detections self) v (_abort_reason self).

Definition set_abort_reason (self : LandingFSM) (v : option string) : LandingFSM :=
  mkFSM (_state self) (_prev_state self) (_acquire_confidence self)
        (_align_error_m self) (_abort_landability self)
        (_touchdown_altitude_m self) (_max_variance self)
        (_consecutive_frames_for_acquire self) (_target_lost_timeout_s self)
        (_consecutive_detections self) (_last_target_time self) v.

(** LandingFSM._transition_to (the log line has no effect on the object). *)
Definition _transition_to (self : LandingFSM) (new_state : LandingState) : LandingFSM :=
  if negb (state_eqb new_state (_state self))
  then set_state self new_state
  else self.

(** LandingFSM._compute_gain *)
Definition _compute_gain (self : LandingFSM) : float :=
  if state_eqb (_state self) SEARCH then 0.5
  else if state_eqb (_state self) ACQUIRE then 0.7
  else 1.0.

(** LandingFSM._make_output *)
Definition _make_output (self : LandingFSM) : SystemOutputs :=
  let publish := state_in (_state self) [ACQUIRE; ALIGN; DESCEND] in
  {| state := _state self;
     publish_landing_target := publish;
     abort_reason := _abort_reason self;
     confidence_gain := _compute_gain self;
     state_changed := negb (state_eqb (_state self) (_prev_state self)) |}.

(** LandingFSM._handle_init *)
Definition _handle_init (self : LandingFSM) (inputs : SystemInputs) : LandingFSM :=
  if mavlink_connected inputs && camera_connected inputs
  then _transition_to self IDLE
  else self.

(** LandingFSM._handle_idle *)
Definition _handle_idle (self : LandingFSM) (inputs : SystemInputs) : LandingFSM :=
  if arm_command inputs then
    if target_visible inputs
    then _transition_to self ACQUIRE
    else _transition_to self SEARCH
  else self.

(** LandingFSM._handle_search *)
Definition _handle_search (self : LandingFSM) (inputs : SystemInputs) : LandingFSM :=
  if target_visible inputs
     && PyFloat.ge (target_confidence inputs) (_acquire_confidence self)
  then
    let self := set_consecutive_detections self (_consecutive_detections self + 1)%Z in
    if (_consecutive_detections self >=? _consecutive_frames_for_acquire self)%Z
    then
      let self := _transition_to self ACQUIRE in
      set_consecutive_detections self 0%Z
    else self
  else set_consecutive_detections self 0%Z.

(** LandingFSM._handle_acquire *)
Definition _handle_acquire (self : LandingFSM) (inputs : SystemInputs) : LandingFSM :=
  if negb (target_visible inputs) then _transition_to self SEARCH
  else if PyFloat.lt (landability_score inputs) (_abort_landability self) then
    let self := _transition_to self ABORT in
    set_abort_reason self (Some "low_landability"%string)
  else if PyFloat.lt (variance inputs) (_max_variance self) then
    _transition_to self ALIGN
  else self.

(** LandingFSM._handle_target_lost *)
Definition _handle_target_lost (self : LandingFSM) (inputs : SystemInputs) : LandingFSM :=
  let self :=
    match _last_target_time self with
    | None => set_last_target_time self (Some (timestamp inputs))
    | Some _ => self
    end in
  match _last_target_time self with
  | Some t0 =>
      if PyFloat.gt (timestamp inputs - t0)%float (_target_lost_timeout_s self)
      then
        let self := _transition_to self SEARCH in
        set_last_target_time self None
      else self
  | None => self
  end.

(** LandingFSM._handle_align *)
Definition _handle_align (self : LandingFSM) (inputs : SystemInputs) : LandingFSM :=
  if negb (target_visible inputs) then _handle_target_lost self inputs
  else if PyFloat.lt (landability_score inputs) (_abort_landability self) then
    let self := _transition_to self ABORT in
    set_abort_reason self (Some "low_landability"%string)
  else if PyFloat.le (lateral_error_m inputs) (_align_error_m self) then
    _transition_to self DESCEND
  else self.

(** LandingFSM._handle_descend *)
Definition _handle_descend (self : LandingFSM) (inputs : SystemInputs) : LandingFSM :=
  if negb (target_visible inputs) then _handle_target_lost self inputs
  else if PyFloat.lt (landability_score inputs) (_abort_landability self) then
    let self := _transition_to self ABORT in
    set_abort_reason self (Some "low_landability"%string)
  else if PyFloat.le (altitude_m inputs) (_touchdown_altitude_m self) then
    _transition_to self TOUCHDOWN
  else self.

(** LandingFSM._handle_touchdown, _handle_abort, _handle_failsafe: [pass]. *)
Definition _handle_touchdown (self : LandingFSM) (inputs : SystemInputs) : LandingFSM := self.
Definition _handle_abort (self : LandingFSM) (inputs : SystemInputs) : LandingFSM := self.
Definition _handle_failsafe (self : LandingFSM) (inputs : SystemInputs) : LandingFSM := self.

(** The [if/elif] chain on [self._state] at the end of [tick]. *)
Definition dispatch (self : LandingFSM) (inputs : SystemInputs) : LandingFSM :=
  match _state self with
  | INIT => _handle_init self inputs
  | IDLE => _handle_idle self inputs
  | SEARCH => _handle_search self inputs
  | ACQUIRE => _handle_acquire self inputs
  | ALIGN => _handle_align self inputs
  | DESCEND => _handle_descend self inputs
  | TOUCHDOWN => _handle_touchdown self inputs
  | ABORT => _handle_abort self inputs
  | FAILSAFE => _handle_failsafe self inputs
  end.

(** LandingFSM.tick: the updated object and the returned SystemOutputs. *)
Definition tick (self : LandingFSM) (inputs : SystemInputs)
  : LandingFSM * SystemOutputs :=
  let self := set_prev_state self (_state self) in
  if negb (mavlink_connected inputs) || negb (camera_connected inputs) then
    let self := _transition_to self FAILSAFE in
    let self := set_abort_reason self (Some "link_lost"%string) in
    (self, _make_output self)
  else if abort_command inputs then
    let self := _transition_to self ABORT in
    let self := set_abort_reason self (Some "external_command"%string) in
    (self, _make_output self)
  else if human_present inputs
          && negb (state_in (_state self) [INIT; IDLE; ABORT; FAILSAFE]) then
    let self := _transition_to self ABORT in
    let self := set_abort_reason self (Some "human_present"%string) in
    (self, _make_output self)
  else
    let self := dispatch self inputs in
    (self, _make_output self).

(** LandingFSM.reset *)
Definition reset (self : LandingFSM) : LandingFSM :=
  let self := set_state self INIT in
  let self := set_prev_state self INIT in
  let self := set_consecutive_detections self 0%Z in
  let self := set_last_target_time self None in
  set_abort_reason self None.

(** A driver loop: one [tick] per snapshot, the outputs in order. *)
Fixpoint run (self : LandingFSM) (inputs : list SystemInputs)
  : LandingFSM * list SystemOutputs :=
  match inputs with
  | [] => (self, [])
  | i :: rest =>
      let '(self1, o) := tick self i in
      let '(self2, os) := run self1 rest in
      (self2, o :: os)
  end.

(** The instances a driver can produce: a constructed object, then any
    interleaving of [tick] and [reset]. *)
Inductive reachable : LandingFSM -> Prop :=
| reach_init : forall c e l t v n s, reachable (init c e l t v n s)
| reach_tick : forall f i, reachable f -> reachable (fst (tick f i))
| reach_reset : forall f, reachable f -> reachable (reset f).

(** Touchdown, Abort, Failsafe. *)
Definition is_terminal (s : LandingState) : bool :=
  state_in s [TOUCHDOWN; ABORT; FAILSAFE].

(** The three guards that [tick] evaluates before the per-state handler. *)
Definition priority_rule_fires (self : LandingFSM) (inputs : SystemInputs) : bool :=
  (negb (mavlink_connected inputs) || negb (camera_connected inputs))
  || abort_command inputs
  || (human_present inputs
      && negb (state_in (_state self) [INIT; IDLE; ABORT; FAILSAFE])).

(** Two instances built with the same constructor arguments. *)
Definition same_config (a b : LandingFSM) : Prop :=
  _acquire_confidence a = _acquire_confidence b /\
  _align_error_m a = _align_error_m b /\
  _abort_landability a = _abort_landability b /\
  _touchdown_altitude_m a = _touchdown_altitude_m b /\
  _max_variance a = _max_variance b /\
  _consecutive_frames_for_acquire a = _consecutive_frames_for_acquire b /\
  _target_lost_timeout_s a = _target_lost_timeout_s b.

End Fsm.

(* ------------------------------------------------------------------------- *)
(** ** perception/pose/filtering.py *)

Module Filtering.

Local Open Scope float_scope.

(** A float64 array of shape (3,): a position, a variance or a velocity. *)
Record vec3 : Type := Vec3 { c0 : float; c1 : float; c2 : float }.

(** Element-wise numpy operators, a scalar operand being broadcast. *)
Definition vmap (f : float -> float) (a : vec3) : vec3 :=
  Vec3 (f (c0 a)) (f (c1 a)) (f (c2 a)).
Definition vzip (f : float -> float -> float) (a b : vec3) : vec3 :=
  Vec3 (f (c0 a) (c0 b)) (f (c1 a) (c1 b)) (f (c2 a) (c2 b)).

Definition vadd : vec3 -> vec3 -> vec3 := vzip PrimFloat.add.
Definition vsub : vec3 -> vec3 -> vec3 := vzip PrimFloat.sub.
Definition vdiv : vec3 -> vec3 -> vec3 := vzip PrimFloat.div.
(** [k * a], [k + a], [a * k], [a / k] with [k] a Python float. *)
Definition smul (k : float) (a : vec3) : vec3 := vmap (fun x => k * x) a.
Definition sadd (k : float) (a : vec3) : vec3 := vmap (fun x => k + x) a.
Definition vmuls (a : vec3) (k : float) : vec3 := vmap (fun x => x * k) a.
Definition vdivs (a : vec3) (k : float) : vec3 := vmap (fun x => x / k) a.
(** [a ** 2] *)
Definition vsquare (a : vec3) : vec3 := vmap (fun x => x * x) a.

(** np.full(3, x), np.zeros(3) *)
Definition np_full3 (x : float) : vec3 := Vec3 x x x.
Definition np_zeros3 : vec3 := np_full3 0.

(** np.maximum on one element: the larger operand, NaN if either is NaN. *)
Definition np_maximum (a b : float) : float :=
  if PyFloat.ge a b || is_nan a then a else b.

(** np.sum over the three elements, accumulated in index order. *)
Definition np_sum (a : vec3) : float := c0 a + c1 a + c2 a.

(** Some component is NaN. *)
Definition has_nan (a : vec3) : bool :=
  is_nan (c0 a) || is_nan (c1 a) || is_nan (c2 a).

(** Some component is +inf or -inf. *)
Definition has_inf (a : vec3) : bool :=
  is_infinity (c0 a) || is_infinity (c1 a) || is_infinity (c2 a).

(** np.isfinite(a).all() *)
Definition all_finite (a : vec3) : bool :=
  is_finite (c0 a) && is_finite (c1 a) && is_finite (c2 a).

(** @dataclass FilteredPose *)
Record FilteredPose : Type := mkPose {
  position : vec3;
  variance : vec3;
  velocity : vec3;
  is_valid : bool;
  timestamp : float
}.

(** *** class ExpSmoother *)

Record ExpSmoother : Type := mkExp {
  _alpha : float;
  _outlier_threshold : float;
  _initial_variance : float;
  _state : option vec3;
  _variance : option vec3;
  _last_time : option float;
  _velocity : vec3
}.

(** ExpSmoother.__init__; [None] is the ValueError for alpha outside (0, 1]. *)
Definition exp_init (alpha outlier_threshold initial_variance : float)
  : option ExpSmoother :=
  if negb (PyFloat.lt 0 alpha && PyFloat.le alpha 1) then None
  else Some {| _alpha := alpha;
               _outlier_threshold := outlier_threshold;
               _initial_variance := initial_variance;
               _state := None;
               _variance := None;
               _last_time := None;
               _velocity := np_zeros3 |}.

(** The distance computed inside [_is_outlier]:
    sqrt(sum(diff**2 / maximum(variance, 1e-6))). *)
Definition mahalanobis (state var measurement : vec3) : float :=
  let diff := vsub measurement state in
  let var_safe := vmap (fun v => np_maximum v 1e-6) var in
  let mahal_sq := np_sum (vdiv (vsquare diff) var_safe) in
  PrimFloat.sqrt mahal_sq.

(** ExpSmoother._is_outlier *)
Definition _is_outlier (self : ExpSmoother) (measurement : vec3) : bool :=
  match _state self, _variance self with
  | Some state, Some var =>
      PyFloat.gt (mahalanobis state var measurement) (_outlier_threshold self)
  | _, _ => false
  end.

(** The exponential blend [alpha * new + (1 - alpha) * old] on arrays. *)
Definition blend (alpha : float) (new old : vec3) : vec3 :=
  vadd (smul alpha new) (smul (1 - alpha) old).

(** The variance blend [alpha * measurement_variance + (1 - alpha) * var],
    whose first operand is a scalar. *)
Definition blend_var (alpha measurement_variance : float) (var : vec3) : vec3 :=
  sadd (alpha * measurement_variance) (smul (1 - alpha) var).

(** ExpSmoother.update.  [None] stands for the TypeError Python raises when
    [_variance] is None on an object whose [_state] is set. *)
Definition exp_update (self : ExpSmoother) (measurement : vec3)
           (measurement_variance timestamp : float)
  : option (ExpSmoother * FilteredPose) :=
  match _state self with
  | None =>
      let state := measurement in
      let var := np_full3 (_initial_variance self) in
      let self := mkExp (_alpha self) (_outlier_threshold self)
                        (_initial_variance self) (Some state) (Some var)
                        (Some timestamp) (_velocity self) in
      Some (self, mkPose state var (_velocity self) true timestamp)
  | Some state =>
      if _is_outlier self measurement then
        match _variance self with
        | None => None
        | Some var =>
            let var := vmuls var 1.5 in
            let self := mkExp (_alpha self) (_outlier_threshold self)
                              (_initial_variance self) (Some state) (Some var)
                              (_last_time self) (_velocity self) in
            Some (self, mkPose state var (_velocity self) true timestamp)
        end
      else
        let vel :=
          match _last_time self with
          | Some last =>
              if PyFloat.gt timestamp last then
                let dt := timestamp - last in
                let new_velocity := vdivs (vsub measurement state) dt in
                blend (_alpha self) new_velocity (_velocity self)
              else _velocity self
          | None => _velocity self
          end in
        let state' := blend (_alpha self) measurement state in
        match _variance self with
        | None => None
        | Some var =>
            let var' := blend_var (_alpha self) measurement_variance var in
            let self := mkExp (_alpha self) (_outlier_threshold self)
                              (_initial_variance self) (Some state') (Some var')
                              (Some timestamp) vel in
            Some (self, mkPose state' var' vel true timestamp)
        end
  end.

(** ExpSmoother.reset *)
Definition exp_reset (self : ExpSmoother) : ExpSmoother :=
  mkExp (_alpha self) (_outlier_threshold self) (_initial_variance self)
        None None None np_zeros3.

(** ExpSmoother.is_initialized *)
Definition exp_is_initialized (self : ExpSmoother) : bool :=
  match _state self with Some _ => true | None => false end.

(** *** class KalmanFilter3D *)

(** Arrays of shape (n,) and (n, m), row-major. *)
Definition vector : Type := list float.
Definition matrix : Type := list (list float).

Definition to_list (a : vec3) : vector := [c0 a; c1 a; c2 a].
(** [v[k:k+3]] read back as a 3-array. *)
Definition slice3 (v : vector) (k : nat) : vec3 :=
  Vec3 (nth k v 0) (nth (k + 1) v 0) (nth (k + 2) v 0).

Definition lzip (f : float -> float -> float) (u v : vector) : vector :=
  map (fun p => f (fst p) (snd p)) (combine u v).
Definition dot (u v : vector) : float :=
  fold_left PrimFloat.add (lzip PrimFloat.mul u v) 0.
Definition ncols (m : matrix) : nat :=
  match m with [] => 0%nat | r :: _ => List.length r end.
Definition col (j : nat) (m : matrix) : vector := map (fun r => nth j r 0) m.
Definition entry (m : matrix) (i j : nat) : float := nth j (nth i m []) 0.

(** [m.T], [a @ v], [a @ b], [a + b], [a - b], [m * k], np.eye(n) *)
Definition transpose (m : matrix) : matrix :=
  map (fun j => col j m) (seq 0 (ncols m)).
Definition matvec (a : matrix) (v : vector) : vector :=
  map (fun r => dot r v) a.
Definition matmul (a b : matrix) : matrix :=
  map (fun r => map (fun j => dot r (col j b)) (seq 0 (ncols b))) a.
Definition madd (a b : matrix) : matrix :=
  map (fun p => lzip PrimFloat.add (fst p) (snd p)) (combine a b).
Definition msub (a b : matrix) : matrix :=
  map (fun p => lzip PrimFloat.sub (fst p) (snd p)) (combine a b).
Definition mscale (m : matrix) (k : float) : matrix :=
  map (map (fun x => x * k)) m.
Definition eye (n : nat) : matrix :=
  map (fun i => map (fun j => if Nat.eqb i j then 1 else 0) (seq 0 n)) (seq 0 n).
Definition zeros (n m : nat) : matrix := repeat (repeat 0 m) n.

(** [m[i, j] = x] *)
Fixpoint set_nth {A : Type} (k : nat) (x : A) (l : list A) : list A :=
  match l, k with
  | [], _ => []
  | _ :: t, O => x :: t
  | h :: t, S k' => h :: set_nth k' x t
  end.
Definition set_entry (m : matrix) (i j : nat) (x : float) : matrix :=
  set_nth i (set_nth j x (nth i m [])) m.

Record KalmanFilter3D : Type := mkKalman {
  _dt : float;
  _x : vector;
  _P : matrix;
  _F : matrix;
  _H : matrix;
  _Q : matrix;
  _R : matrix;
  _initialized : bool
}.

(** The three assignments [F[0,3] = F[1,4] = F[2,5] = dt]. *)
Definition couple_velocity (F : matrix) (dt : float) : matrix :=
  set_entry (set_entry (set_entry F 0 3 dt) 1 4 dt) 2 5 dt.

(** KalmanFilter3D.__init__ *)
Definition kalman_init (process_noise measurement_noise dt : float)
  : KalmanFilter3D :=
  {| _dt := dt;
     _x := repeat 0 6;
     _P := mscale (eye 6) 1.0;
     _F := couple_velocity (eye 6) dt;
     _H := set_entry (set_entry (set_entry (zeros 3 6) 0 0 1) 1 1 1) 2 2 1;
     _Q := mscale (eye 6) process_noise;
     _R := mscale (eye 3) measurement_noise;
     _initialized := false |}.

(** The pose both return statements of [update] build (timestamp keeps the
    dataclass default 0.0). *)
Definition kalman_pose (x : vector) (P : matrix) : FilteredPose :=
  mkPose (slice3 x 0) (Vec3 (entry P 0 0) (entry P 1 1) (entry P 2 2))
         (slice3 x 3) true 0.0.

Section Kalman.

(** numpy.linalg.inv, an external routine: [None] is its LinAlgError. *)
Variable np_linalg_inv : matrix -> option matrix.

(** KalmanFilter3D.update; [None] when the matrix inversion raises. *)
Definition kalman_update (self : KalmanFilter3D) (measurement : vec3)
           (dt : option float) : option (KalmanFilter3D * FilteredPose) :=
  if negb (_initialized self) then
    let x := to_list measurement ++ skipn 3 (_x self) in
    let self := mkKalman (_dt self) x (_P self) (_F self) (_H self)
                         (_Q self) (_R self) true in
    Some (self, kalman_pose x (_P self))
  else
    let '(dt', F) :=
      match dt with
      | Some d =>
          if PyFloat.ne d (_dt self)
          then (d, couple_velocity (_F self) d)
          else (_dt self, _F self)
      | None => (_dt self, _F self)
      end in
    let H := _H self in
    (* Predict *)
    let x := matvec F (_x self) in
    let P := madd (matmul (matmul F (_P self)) (transpose F)) (_Q self) in
    (* Update *)
    let y := lzip PrimFloat.sub (to_list measurement) (matvec H x) in
    let S := madd (matmul (matmul H P) (transpose H)) (_R self) in
    match np_linalg_inv S with
    | None => None
    | Some Sinv =>
        let K := matmul (matmul P (transpose H)) Sinv in
        let x := lzip PrimFloat.add x (matvec K y) in
        let P := matmul (msub (eye 6) (matmul K H)) P in
        let self := mkKalman dt' x P F H (_Q self) (_R self) true in
        Some (self, kalman_pose x P)
    end.

End Kalman.

(** KalmanFilter3D.reset *)
Definition kalman_reset (self : KalmanFilter3D) : KalmanFilter3D :=
  mkKalman (_dt self) (repeat 0 6) (mscale (eye 6) 1.0) (_F self) (_H self)
           (_Q self) (_R self) false.

End Filtering.

(* ------------------------------------------------------------------------- *)
(** ** Array shapes of the Kalman filter *)

Module KalmanShape.
Import Filtering.

(** An array of shape (n, m). *)
Definition shape (n m : nat) (a : matrix) : Prop :=
  List.length a = n /\ Forall (fun r => List.length r = m) a.

(** The array shapes of a KalmanFilter3D instance. *)
Definition kalman_shaped (kf : KalmanFilter3D) : Prop :=
  List.length (_x kf) = 6%nat /\
  shape 6 6 (_P kf) /\ shape 6 6 (_F kf) /\ shape 3 6 (_H kf) /\
  shape 6 6 (_Q kf) /\ shape 3 3 (_R kf).

(** Every element is NaN. *)
Definition all_nan (v : vector) : Prop := Forall (fun c => is_nan c = true) v.

End KalmanShape.

(* ------------------------------------------------------------------------- *)
(** ** control/safety.py: the supervisor's checks, on clock readings and
    speeds read as real numbers *)

Module Safety.

Local Open Scope R_scope.

(** @dataclass SafetyLimits *)
Record SafetyLimits : Type := mkLimits {
  max_lateral_speed_mps : R;
  max_descent_speed_mps : R;
  min_safe_altitude_m : R;
  max_jerk_mps3 : R;
  perception_timeout_s : R;
  mavlink_timeout_s : R
}.

(** SafetyLimits() *)
Definition default_limits : SafetyLimits :=
  mkLimits 1.5 0.7 2.0 5.0 1.0 3.0.


(** The attributes of a SafetySupervisor instance. *)
Record SafetySupervisor : Type := mkSupervisor {
  _limits : SafetyLimits;
  _last_perception_time : R;
  _last_mavlink_time : R;
  _violations : list string
}.






(** SafetySupervisor.reset, with its two readings of time.time(). *)
Definition supervisor_reset (self : SafetySupervisor) (now1 now2 : R)
  : SafetySupervisor :=
  mkSupervisor (_limits self) now1 now2 [].

End Safety.

(* ------------------------------------------------------------------------- *)
(** ** control/safety.py: the velocity clamp, on binary64 *)

Module SafetyClamp.

Import PyArith.
Local Open Scope float_scope.

(** @dataclass SafetyLimits, with the binary64 values [clamp_velocity]
    computes with. *)
Record SafetyLimits : Type := mkLimits {
  max_lateral_speed_mps : float;
  max_descent_speed_mps : float;
  min_safe_altitude_m : float;
  max_jerk_mps3 : float;
  perception_timeout_s : float;
  mavlink_timeout_s : float
}.

(** SafetyLimits() *)
Definition default_limits : SafetyLimits :=
  mkLimits 1.5 0.7 2.0 5.0 1.0 3.0.

Section Libm.

Variable libm_pow : float -> float -> float.

(** [(vx**2 + vy**2) ** 0.5] *)
Definition lateral_speed_of (vx vy : float) : option float :=
  match pow_two libm_pow vx with
  | None => None
  | Some sx =>
      match pow_two libm_pow vy with
      | None => None
      | Some sy => pow_half libm_pow (sx + sy)
      end
  end.

(** SafetySupervisor.clamp_velocity, [limits] being [self._limits] and the
    arguments Python floats, as annotated; [None] when an exception is
    raised. *)
Definition clamp_velocity (limits : SafetyLimits) (vx vy vz confidence : float)
  : option (float * float * float) :=
  let lat_limit := max_lateral_speed_mps limits * confidence in
  let desc_limit := max_descent_speed_mps limits * confidence in
  match lateral_speed_of vx vy with
  | None => None
  | Some lateral_speed =>
      let lateral :=
        if PyFloat.gt lateral_speed lat_limit then
          match truediv lat_limit lateral_speed with
          | None => None
          | Some scale => Some (vx * scale, vy * scale)
          end
        else Some (vx, vy) in
      match lateral with
      | None => None
      | Some (vx, vy) =>
          let vz := if PyFloat.gt vz desc_limit then desc_limit else vz in
          Some (vx, vy, vz)
      end
  end.

End Libm.

End SafetyClamp.

(* ------------------------------------------------------------------------- *)
(** ** Concrete snapshots and drives used by the examples *)

Module Scenario.

Import Fsm.
Local Open Scope float_scope.

(** SystemInputs(timestamp=ts): both links up, nothing else set. *)
Definition connected (ts : float) : SystemInputs := default_inputs ts.

(** ... arm_command=True *)
Definition armed (ts : float) : SystemInputs :=
  mkInputs false 0.0 infinity 100.0 1.0 true true true false ts false 0.0.

(** ... arm_command=True, target_visible=True, target_confidence=0.8,
    variance=0.3 *)
Definition sighted (ts : float) : SystemInputs :=
  mkInputs true 0.8 infinity 100.0 1.0 true true true false ts false 0.3.

(** [sighted] with target_visible=False. *)
Definition unsighted (ts : float) : SystemInputs :=
  mkInputs false 0.8 infinity 100.0 1.0 true true true false ts false 0.3.

(** [sighted] with lateral_error_m=0.1 and the given altitude. *)
Definition centred (ts alt : float) : SystemInputs :=
  mkInputs true 0.8 0.1 alt 1.0 true true true false ts false 0.3.

(** SystemInputs(abort_command=True) *)
Definition abort_cmd (ts : float) : SystemInputs :=
  mkInputs false 0.0 infinity 100.0 1.0 true true false true ts false 0.0.

(** SystemInputs(mavlink_connected=False) *)
Definition link_lost (ts : float) : SystemInputs :=
  mkInputs false 0.0 infinity 100.0 1.0 false true false false ts false 0.0.

(** SystemInputs(human_present=True) *)
Definition human (ts : float) : SystemInputs :=
  mkInputs false 0.0 infinity 100.0 1.0 true true false false ts true 0.0.

(** human_present=True together with mavlink_connected=False. *)
Definition human_link_lost (ts : float) : SystemInputs :=
  mkInputs false 0.0 infinity 100.0 1.0 false true false false ts true 0.0.

(** human_present=True together with abort_command=True. *)
Definition human_abort_cmd (ts : float) : SystemInputs :=
  mkInputs false 0.0 infinity 100.0 1.0 true true false true ts true 0.0.

(** A default FSM driven Init -> Idle -> Search. *)
Definition searching : LandingFSM :=
  fst (run default_fsm [connected 0; armed 0]).

(** A default FSM driven Init -> Idle -> Acquire -> Align. *)
Definition aligning : LandingFSM :=
  fst (run default_fsm [connected 0; sighted 0; sighted 0]).

(** A default FSM driven through Descend to Touchdown. *)
Definition landed : LandingFSM :=
  fst (run default_fsm [connected 0; centred 0 5.0; centred 0 5.0;
                        centred 0 5.0; centred 0 0.3]).

(** A default FSM aborted by command on its first tick. *)
Definition aborted : LandingFSM := fst (tick default_fsm (abort_cmd 0)).

End Scenario.

(* ------------------------------------------------------------------------- *)
(** ** Concrete filters used by the examples *)

Module FilterScenario.

Import Filtering.
Local Open Scope float_scope.

(** ExpSmoother() *)
Definition fresh_smoother : ExpSmoother :=
  mkExp 0.35 4.0 1.0 None None None np_zeros3.

(** ExpSmoother() after update([0, 0, 0], timestamp=0). *)
Definition smoother_at_origin : ExpSmoother :=
  mkExp 0.35 4.0 1.0 (Some (Vec3 0 0 0)) (Some (Vec3 1 1 1)) (Some 0)
        np_zeros3.

(** ExpSmoother(alpha=0.5) after update([1, 1, 1], timestamp=0). *)
Definition half_smoother_at_one : ExpSmoother :=
  mkExp 0.5 4.0 1.0 (Some (Vec3 1 1 1)) (Some (Vec3 1 1 1)) (Some 0)
        np_zeros3.

(** ExpSmoother(alpha=0.3, outlier_threshold=2.0) after
    update([0, 0, 0], timestamp=0), as in the repository's outlier test. *)
Definition strict_smoother_at_origin : ExpSmoother :=
  mkExp 0.3 2.0 1.0 (Some (Vec3 0 0 0)) (Some (Vec3 1 1 1)) (Some 0)
        np_zeros3.

(** KalmanFilter3D() *)
Definition fresh_kalman : KalmanFilter3D := kalman_init 0.1 0.5 0.05.

(** A stand-in for numpy.linalg.inv on paths that never call it. *)
Definition no_inverse (_ : matrix) : option matrix := None.

(** A stand-in for numpy.linalg.inv that answers the 3x3 identity, enough to
    run the predict/update path of the Kalman filter. *)
Definition identity_inverse (_ : matrix) : option matrix := Some (eye 3).

(** KalmanFilter3D() after update([0, 0, 0]). *)
Definition tracking_kalman : KalmanFilter3D :=
  match kalman_update no_inverse fresh_kalman (Vec3 0 0 0) None with
  | Some (kf, _) => kf
  | None => fresh_kalman
  end.

End FilterScenario.

(* ------------------------------------------------------------------------- *)
(** ** control/guidance.py *)

Module Guidance.

Import PyArith.
Local Open Scope float_scope.

(** @dataclass GuidanceSetpoint *)
Record GuidanceSetpoint : Type := mkSetpoint {
  vx : float;
  vy : float;
  vz : float;
  yaw_rate : float
}.

(** The attributes of a GuidanceController instance. *)
Record GuidanceController : Type := mkController {
  _lateral_gain : float;
  _descent_rate : float;
  _alignment_threshold : float
}.

(** GuidanceController() *)
Definition default_controller : GuidanceController := mkController 0.5 0.3 0.1.

Section Libm.

Variable libm_pow : float -> float -> float.

(** GuidanceController.compute_setpoint, on Python floats as annotated;
    [None] when [target_x**2] or [target_y**2] raises OverflowError.
    [target_z] and [current_altitude] are accepted and not used; np.sqrt is
    the IEEE square root, NaN on a negative operand. *)
Definition compute_setpoint (self : GuidanceController)
           (target_x target_y target_z current_altitude confidence : float)
  : option GuidanceSetpoint :=
  let gain := _lateral_gain self * confidence in
  let vx := - gain * target_x in
  let vy := - gain * target_y in
  match pow_two libm_pow target_x with
  | None => None
  | Some sx =>
      match pow_two libm_pow target_y with
      | None => None
      | Some sy =>
          let lateral_error := PrimFloat.sqrt (sx + sy) in
          let vz :=
            if PyFloat.gt lateral_error (_alignment_threshold self)
            then _descent_rate self * 0.3
            else _descent_rate self * confidence in
          Some (mkSetpoint vx vy vz 0.0)
      end
  end.

End Libm.

End Guidance.

(* ------------------------------------------------------------------------- *)
(** ** utils/throttling.py *)

Module Throttling.

Local Open Scope float_scope.

(** The attributes of a RateLimiter instance; the lock guards every method
    and has no effect on a single caller. *)
Record RateLimiter : Type := mkLimiter {
  _interval_s : float;
  _last_time : float
}.

(** RateLimiter.__init__; [None] is the ValueError for [rate_hz <= 0]. *)
Definition limiter_init (rate_hz : float) : option RateLimiter :=
  if PyFloat.le rate_hz 0 then None
  else Some (mkLimiter (1.0 / rate_hz) 0.0).

(** RateLimiter.rate_hz *)
Definition rate_hz (self : RateLimiter) : float := 1.0 / _interval_s self.

(** RateLimiter.should_run; [current_time] is its reading of
    time.monotonic(). *)
Definition should_run (self : RateLimiter) (current_time : float)
  : RateLimiter * bool :=
  if PyFloat.ge (current_time - _last_time self) (_interval_s self)
  then (mkLimiter (_interval_s self) current_time, true)
  else (self, false).

(** RateLimiter.reset *)
Definition limiter_reset (self : RateLimiter) : RateLimiter :=
  mkLimiter (_interval_s self) 0.0.

(** Python's [max(a, b)]: [b] when [b > a], else [a]. *)
Definition py_max (a b : float) : float := if PyFloat.gt b a then b else a.

(** RateLimiter.time_until_next *)
Definition time_until_next (self : RateLimiter) (now : float) : float :=
  let elapsed := now - _last_time self in
  let remaining := _interval_s self - elapsed in
  py_max 0.0 remaining.

(** A caller polling [should_run] at the given clock readings. *)
Fixpoint poll (self : RateLimiter) (times : list float)
  : RateLimiter * list bool :=
  match times with
  | [] => (self, [])
  | t :: rest =>
      let '(self1, b) := should_run self t in
      let '(self2, bs) := poll self1 rest in
      (self2, b :: bs)
  end.

End Throttling.

(* ------------------------------------------------------------------------- *)
(** ** Vocabulary for the properties of the state machine and the smoother *)

Module FsmGraph.

Import Fsm.

(** The edges of the landing sequence: staying, the two safety exits open from
    everywhere, and the forward and fall-back steps of each stage. *)
Definition edge (a b : LandingState) : bool :=
  state_eqb a b
  || state_in b [ABORT; FAILSAFE]
  || match a with
     | INIT => state_in b [IDLE]
     | IDLE => state_in b [SEARCH; ACQUIRE]
     | SEARCH => state_in b [ACQUIRE]
     | ACQUIRE => state_in b [SEARCH; ALIGN]
     | ALIGN => state_in b [SEARCH; DESCEND]
     | DESCEND => state_in b [SEARCH; TOUCHDOWN]
     | TOUCHDOWN | ABORT | FAILSAFE => false
     end.

(** Both links up and no abort command. *)
Definition links_and_no_abort (i : SystemInputs) : bool :=
  mavlink_connected i && camera_connected i && negb (abort_command i).

(** A snapshot on which no priority rule can fire in any state. *)
Definition calm (i : SystemInputs) : bool :=
  links_and_no_abort i && negb (human_present i).

(** The detection test of [_handle_search]. *)
Definition confident_detection (f : LandingFSM) (i : SystemInputs) : bool :=
  target_visible i && PyFloat.ge (target_confidence i) (_acquire_confidence f).

(** The reasons [tick] can record. *)
Definition abort_reasons : list string :=
  ["external_command"; "human_present"; "low_landability"]%string.

(** What the abort reason can be in each state. *)
Definition reason_fits (s : LandingState) (r : option string) : Prop :=
  match s with
  | FAILSAFE => r = Some "link_lost"%string
  | ABORT => exists x, r = Some x /\ In x abort_reasons
  | _ => r = None
  end.

(** What [reachable] instances keep true of the detection counter. *)
Definition counter_ok (f : LandingFSM) : Prop :=
  (0 <= _consecutive_detections f)%Z /\
  (_consecutive_detections f = 0%Z \/
   (_consecutive_detections f < _consecutive_frames_for_acquire f)%Z) /\
  (state_in (_state f) [SEARCH; ABORT; FAILSAFE] = false ->
   _consecutive_detections f = 0%Z).

End FsmGraph.

Module SmootherReach.

Import Filtering.

(** The smoothers a caller can hold: a constructed one, then any sequence of
    [update] and [reset]. *)
Inductive reachable : ExpSmoother -> Prop :=
| reach_init : forall a t v f, exp_init a t v = Some f -> reachable f
| reach_update : forall f m mv ts f' p,
    reachable f -> exp_update f m mv ts = Some (f', p) -> reachable f'
| reach_reset : forall f, reachable f -> reachable (exp_reset f).

(** State, variance and last timestamp are set together, and alpha is in
    (0, 1]. *)
Definition well_formed (f : ExpSmoother) : Prop :=
  PyFloat.lt 0 (_alpha f) = true /\ PyFloat.le (_alpha f) 1 = true /\
  match _state f, _variance f, _last_time f with
  | Some _, Some _, Some _ => True
  | None, None, None => True
  | _, _, _ => False
  end.

End SmootherReach.

(* ------------------------------------------------------------------------- *)
(** ** Classes of binary64 values, on their specification [spec_float] *)

Module SFClass.

(** Strictly positive: a positive finite number or +infinity. *)
Definition SFpositive (f : spec_float) : Prop :=
  match f with
  | S754_finite false _ _ | S754_infinity false => True
  | _ => False
  end.

(** A result that is not NaN and carries sign [s]. *)
Definition SFsigned (s : bool) (f : spec_float) : Prop :=
  match f with
  | S754_zero s' | S754_infinity s' | S754_finite s' _ _ => s' = s
  | S754_nan => False
  end.

(** Neither infinite nor NaN. *)
Definition SFfin (f : spec_float) : Prop :=
  match f with
  | S754_zero _ | S754_finite _ _ _ => True
  | _ => False
  end.

(** An infinity of either sign. *)
Definition SFinf (f : spec_float) : Prop :=
  match f with S754_infinity _ => True | _ => False end.

End SFClass.

(* ========================================================================= *)
(** * Facts about binary64 comparison and NaN *)

Module FloatFacts.

Import SFClass.

(** ** Rounding a positive integer to binary64 never reaches zero *)

Local Open Scope Z_scope.

(** [digits2_pos] is the bit length. *)
Lemma digits2_pos_size (p : positive) : digits2_pos p = Pos.size p.
Proof. induction p; simpl; congruence. Qed.

(** A mantissa of [d] digits lies in [2^(d-1), 2^d). *)
Lemma digits2_pos_bounds (p : positive) :
  2 ^ (Zpos (digits2_pos p) - 1) <= Zpos p < 2 ^ Zpos (digits2_pos p).
Proof.
  rewrite digits2_pos_size. split.
  - pose proof (Pos.size_le p) as H.
    assert (E : 2 ^ Zpos (Pos.size p) <= 2 * Zpos p).
    { rewrite <- (Pos2Z.inj_pow 2 (Pos.size p)).
      change (2 * Zpos p) with (Zpos (p~0)). exact H. }
    replace (Zpos (Pos.size p)) with (Z.succ (Zpos (Pos.size p) - 1)) in E by lia.
    rewrite Z.pow_succ_r in E by lia. lia.
  - pose proof (Pos.size_gt p) as H.
    rewrite <- (Pos2Z.inj_pow 2 (Pos.size p)). exact H.
Qed.

(** One right shift drops one digit of a non-negative mantissa. *)
Lemma shr_1_digits (mrs : shr_record) :
  0 <= shr_m mrs ->
  0 <= shr_m (shr_1 mrs) /\
  Zdigits2 (shr_m (shr_1 mrs)) = Z.max 0 (Zdigits2 (shr_m mrs) - 1).
Proof.
  destruct mrs as [m r s]. cbn [shr_m]. intros H.
  destruct m as [| p | p]; [cbn; lia | | lia].
  destruct p; cbn [shr_1 shr_m Zdigits2 digits2_pos];
    rewrite ?Pos2Z.inj_succ; lia.
Qed.

(** [p] right shifts drop [p] digits, down to zero. *)
Lemma iter_shr_1_digits (p : positive) (mrs : shr_record) :
  0 <= shr_m mrs ->
  0 <= shr_m (SpecFloat.iter_pos shr_1 p mrs) /\
  Zdigits2 (shr_m (SpecFloat.iter_pos shr_1 p mrs)) = Z.max 0 (Zdigits2 (shr_m mrs) - Zpos p).
Proof.
  revert mrs. induction p as [p IH | p IH |]; intros mrs H; simpl.
  - destruct (shr_1_digits mrs H) as (H1 & E1).
    destruct (IH _ H1) as (H2 & E2).
    destruct (IH _ H2) as (H3 & E3).
    split; [exact H3 |]. rewrite E3, E2, E1. lia.
  - destruct (IH _ H) as (H2 & E2).
    destruct (IH _ H2) as (H3 & E3).
    split; [exact H3 |]. rewrite E3, E2. lia.
  - apply shr_1_digits. exact H.
Qed.

(** Only zero has no digit. *)
Lemma Zdigits2_pos_iff (m : Z) : 0 <= m -> (0 < Zdigits2 m <-> 0 < m).
Proof. destruct m; simpl; lia. Qed.

(** Truncation to the format keeps a positive mantissa positive as long as
    the exponent is at least [emin]. *)
Lemma shr_fexp_pos (m : positive) (e : Z) (l : location) :
  SpecFloat.emin prec emax <= e ->
  0 < shr_m (fst (shr_fexp prec emax (Zpos m) e l)) /\
  SpecFloat.emin prec emax <= snd (shr_fexp prec emax (Zpos m) e l).
Proof.
  intros He. unfold shr_fexp, shr, fexp, SpecFloat.emin, prec, emax in *.
  set (mrs := shr_record_of_loc (Zpos m) l).
  assert (Hm : shr_m mrs = Zpos m) by (unfold mrs; destruct l as [| []]; reflexivity).
  simpl Zdigits2.
  destruct (Z.max (Zpos (digits2_pos m) + e - 53) (3 - 1024 - 53) - e) as [| n | n] eqn:En;
    simpl; try (rewrite Hm; lia).
  assert (H0 : 0 <= shr_m mrs) by (rewrite Hm; lia).
  destruct (iter_shr_1_digits n mrs H0) as (H1 & E1).
  split; [| lia].
  apply Zdigits2_pos_iff; [exact H1 |].
  rewrite E1, Hm. simpl Zdigits2. lia.
Qed.

(** Rounding to nearest-even never decreases the truncated mantissa. *)
Lemma round_nearest_even_pos (m : Z) (l : location) :
  0 < m -> 0 < round_nearest_even m l.
Proof.
  intros H. destruct l as [| []]; simpl; try lia.
  destruct (Z.even m); lia.
Qed.

(** Rounding a positive mantissa at an exponent of at least [emin] gives a
    positive finite number or +infinity, never zero. *)
Lemma binary_round_aux_pos (m : positive) (e : Z) (l : location) :
  SpecFloat.emin prec emax <= e ->
  SFpositive (binary_round_aux prec emax false (Zpos m) e l).
Proof.
  intros He. unfold binary_round_aux.
  destruct (shr_fexp_pos m e l He) as (H1 & H2).
  destruct (shr_fexp prec emax (Zpos m) e l) as [mrs' e'] eqn:E1. simpl in H1, H2.
  pose proof (round_nearest_even_pos _ (loc_of_shr_record mrs') H1) as Hr.
  destruct (round_nearest_even (shr_m mrs') (loc_of_shr_record mrs')) as [| q | q] eqn:Eq;
    try lia.
  destruct (shr_fexp_pos q e' loc_Exact H2) as (H3 & H4).
  destruct (shr_fexp prec emax (Zpos q) e' loc_Exact) as [mrs'' e''] eqn:E2.
  simpl in H3, H4.
  destruct (shr_m mrs'') as [| r | r]; try lia.
  destruct (e'' <=? emax - prec); exact I.
Qed.

(** The same for [binary_round], which first aligns the mantissa. *)
Lemma binary_round_pos (m : positive) (e : Z) :
  SpecFloat.emin prec emax <= e ->
  SFpositive (binary_round prec emax false m e).
Proof.
  intros He. unfold binary_round.
  destruct (shl_align m e (fexp prec emax (Zpos (digits2_pos m) + e))) as [mz ez] eqn:E.
  apply binary_round_aux_pos.
  unfold shl_align in E.
  destruct (fexp prec emax (Zpos (digits2_pos m) + e) - e) eqn:Ed;
    inversion E; subst; try exact He.
  unfold fexp. lia.
Qed.

(** What validity says of a finite number: its exponent is at least [emin],
    its mantissa has at most [prec] digits, and exactly [prec] above [emin]. *)
Lemma bounded_canonical (m : positive) (e : Z) :
  SpecFloat.bounded prec emax m e = true ->
  SpecFloat.emin prec emax <= e /\
  Zpos (digits2_pos m) <= prec /\
  (SpecFloat.emin prec emax < e -> Zpos (digits2_pos m) = prec).
Proof.
  unfold SpecFloat.bounded, canonical_mantissa, fexp, SpecFloat.emin, prec, emax.
  intros H. apply andb_prop in H. destruct H as (H & _).
  apply Z.eqb_eq in H. lia.
Qed.

(** Aligning to a smaller exponent multiplies the mantissa by a power of 2. *)
Lemma shl_align_value (m : positive) (e ez : Z) :
  ez <= e ->
  Zpos (fst (shl_align m e ez)) = Zpos m * 2 ^ (e - ez).
Proof.
  intros H. unfold shl_align.
  destruct (ez - e) as [| d | d] eqn:Ed; try lia.
  - replace (e - ez) with 0 by lia. simpl. lia.
  - replace (e - ez) with (Zpos d) by lia. simpl fst.
    clear. induction d as [| d IHd] using Pos.peano_ind.
    + simpl. lia.
    + rewrite Pos.iter_succ, Pos2Z.inj_succ, Z.pow_succ_r by lia.
      rewrite Pos2Z.inj_xO, IHd. lia.
Qed.

(** Among canonical mantissas a larger exponent means a larger magnitude. *)
Lemma bounded_exponent_order (m1 m2 : positive) (e1 e2 : Z) :
  SpecFloat.bounded prec emax m1 e1 = true -> SpecFloat.bounded prec emax m2 e2 = true ->
  e1 < e2 -> Zpos m1 < Zpos m2 * 2 ^ (e2 - e1).
Proof.
  intros B1 B2 Hlt.
  destruct (bounded_canonical _ _ B1) as (H1 & D1 & _).
  destruct (bounded_canonical _ _ B2) as (H2 & _ & D2).
  specialize (D2 ltac:(lia)).
  pose proof (digits2_pos_bounds m1) as (_ & U1).
  pose proof (digits2_pos_bounds m2) as (L2 & _).
  rewrite D2 in L2.
  assert (P1 : 2 ^ Zpos (digits2_pos m1) <= 2 ^ prec)
    by (apply Z.pow_le_mono_r; lia).
  assert (P2 : 2 ^ 1 <= 2 ^ (e2 - e1)) by (apply Z.pow_le_mono_r; lia).
  assert (P3 : 2 ^ prec = 2 ^ (prec - 1) * 2 ^ 1)
    by (rewrite <- Z.pow_add_r by (unfold prec; lia); f_equal; lia).
  assert (P4 : 0 < 2 ^ (prec - 1)) by (apply Z.pow_pos_nonneg; unfold prec; lia).
  nia.
Qed.

(** On valid numbers, [X < Y] makes [Y - X] strictly positive: the exact
    difference is a positive multiple of 2^ez with ez >= emin, which no
    rounding takes to zero. *)
Lemma SFsub_pos (X Y : spec_float) :
  SpecFloat.valid_binary prec emax X = true ->
  SpecFloat.valid_binary prec emax Y = true ->
  SFcompare X Y = Some Lt ->
  SFpositive (SF64sub Y X).
Proof.
  intros VX VY Hlt.
  destruct X as [sx | sx | | sx mx ex], Y as [sy | sy | | sy my ey];
    simpl in Hlt; try discriminate Hlt;
    try (destruct sx; try discriminate Hlt; exact I);
    try (destruct sy; try discriminate Hlt; exact I);
    try (destruct sx, sy; try discriminate Hlt; exact I).
  simpl in VX, VY.
  destruct (bounded_canonical _ _ VX) as (EX & _).
  destruct (bounded_canonical _ _ VY) as (EY & _).
  unfold SF64sub, SFsub.
  set (ez := Z.min ey ex).
  assert (Hez : SpecFloat.emin prec emax <= ez) by (unfold ez; lia).
  pose proof (shl_align_value my ey ez ltac:(unfold ez; lia)) as Vy.
  pose proof (shl_align_value mx ex ez ltac:(unfold ez; lia)) as Vx.
  assert (D : 0 < cond_Zopp sy (Zpos (fst (shl_align my ey ez)))
                  - cond_Zopp sx (Zpos (fst (shl_align mx ex ez)))).
  { rewrite Vy, Vx. clear Vy Vx.
    assert (Py : 0 < 2 ^ (ey - ez)) by (apply Z.pow_pos_nonneg; unfold ez; lia).
    assert (Px : 0 < 2 ^ (ex - ez)) by (apply Z.pow_pos_nonneg; unfold ez; lia).
    assert (Qy : 0 < Zpos my * 2 ^ (ey - ez)) by (apply Z.mul_pos_pos; lia).
    assert (Qx : 0 < Zpos mx * 2 ^ (ex - ez)) by (apply Z.mul_pos_pos; lia).
    destruct sx, sy; cbn [cond_Zopp]; try discriminate Hlt; [| lia |].
    - (* both negative *)
      destruct (ex ?= ey) eqn:C; try discriminate Hlt.
      + apply Z.compare_eq in C. subst ey.
        replace (ex - ez) with 0 by (unfold ez; lia).
        rewrite Z.pow_0_r, !Z.mul_1_r.
        destruct (Pos.compare_cont Eq mx my) eqn:Cm; try discriminate Hlt.
        change (Pos.compare_cont Eq mx my) with (mx ?= my)%positive in Cm.
        rewrite Pos.compare_gt_iff in Cm. lia.
      + rewrite Z.compare_gt_iff in C.
        replace (ey - ez) with 0 by (unfold ez; lia).
        replace (ex - ez) with (ex - ey) by (unfold ez; lia).
        pose proof (bounded_exponent_order my mx ey ex VY VX C). lia.
    - (* both positive *)
      destruct (ex ?= ey) eqn:C; try discriminate Hlt.
      + apply Z.compare_eq in C. subst ey.
        replace (ex - ez) with 0 by (unfold ez; lia).
        rewrite Z.pow_0_r, !Z.mul_1_r.
        change (Pos.compare_cont Eq mx my) with (mx ?= my)%positive in Hlt.
        assert (Cm : (mx ?= my)%positive = Lt) by congruence.
        rewrite Pos.compare_lt_iff in Cm. lia.
      + rewrite Z.compare_lt_iff in C.
        replace (ex - ez) with 0 by (unfold ez; lia).
        replace (ey - ez) with (ey - ex) by (unfold ez; lia).
        pose proof (bounded_exponent_order mx my ex ey VX VY C). lia. }
  destruct (cond_Zopp sy (Zpos (fst (shl_align my ey ez)))
            - cond_Zopp sx (Zpos (fst (shl_align mx ex ez)))) as [| p | p] eqn:E;
    try lia.
  unfold binary_normalize. apply binary_round_pos. exact Hez.
Qed.

(** ** Signs of rounded results *)

(** Truncation keeps a non-negative mantissa non-negative. *)
Lemma shr_fexp_nonneg (m e : Z) (l : location) :
  0 <= m -> 0 <= shr_m (fst (shr_fexp prec emax m e l)).
Proof.
  intros H. unfold shr_fexp, shr.
  set (mrs := shr_record_of_loc m l).
  assert (Hm : shr_m mrs = m) by (unfold mrs; destruct l as [| []]; reflexivity).
  destruct (fexp prec emax (Zdigits2 m + e) - e) as [| n | n]; simpl;
    try (rewrite Hm; exact H).
  apply iter_shr_1_digits. rewrite Hm. exact H.
Qed.

(** So does rounding to nearest-even. *)
Lemma round_nearest_even_nonneg (m : Z) (l : location) :
  0 <= m -> 0 <= round_nearest_even m l.
Proof.
  intros H. destruct l as [| []]; simpl; try lia.
  destruct (Z.even m); lia.
Qed.

(** Rounding a non-negative mantissa with sign [s] gives a zero, a finite
    number or an infinity of sign [s], never NaN. *)
Lemma binary_round_aux_signed (s : bool) (m e : Z) (l : location) :
  0 <= m -> SFsigned s (binary_round_aux prec emax s m e l).
Proof.
  intros H. unfold binary_round_aux.
  pose proof (shr_fexp_nonneg m e l H) as H1.
  destruct (shr_fexp prec emax m e l) as [mrs' e']. simpl in H1.
  pose proof (round_nearest_even_nonneg _ (loc_of_shr_record mrs') H1) as H2.
  pose proof (shr_fexp_nonneg _ e' loc_Exact H2) as H3.
  destruct (shr_fexp prec emax
              (round_nearest_even (shr_m mrs') (loc_of_shr_record mrs')) e'
              loc_Exact) as [mrs'' e'']. simpl in H3.
  destruct (shr_m mrs'') as [| r | r]; try lia; simpl; auto.
  match goal with |- context [if ?c then _ else _] => destruct c end;
    reflexivity.
Qed.

(** Normalising an integer never gives NaN. *)
Lemma binary_normalize_not_nan (m e : Z) (sz : bool) :
  binary_normalize prec emax m e sz <> S754_nan.
Proof.
  unfold binary_normalize, binary_round.
  destruct m as [| p | p]; try discriminate.
  - destruct (shl_align p e _) as [mz ez].
    pose proof (binary_round_aux_signed false (Zpos mz) ez loc_Exact ltac:(lia)) as S.
    intros E. rewrite E in S. exact S.
  - destruct (shl_align p e _) as [mz ez].
    pose proof (binary_round_aux_signed true (Zpos mz) ez loc_Exact ltac:(lia)) as S.
    intros E. rewrite E in S. exact S.
Qed.

(** Infinite minus finite is infinite. *)
Lemma SFsub_inf_fin (M S : spec_float) :
  SFinf M -> SFfin S -> SFinf (SF64sub M S).
Proof. destruct M, S; simpl; intros HM HS; try contradiction; exact I. Qed.

(** Subtracting a finite number never creates a NaN. *)
Lemma SFsub_not_nan (M S : spec_float) :
  M <> S754_nan -> SFfin S -> SF64sub M S <> S754_nan.
Proof.
  destruct M as [sm | sm | | sm mm em], S as [ss | ss | | ss ms es];
    simpl; intros HM HS; try contradiction; try discriminate;
    try (now elim HM).
  - destruct sm, ss; discriminate.
  - apply binary_normalize_not_nan.
Qed.

(** A square is never negative, and the square of an infinity is +inf. *)
Lemma SFmul_square (D : spec_float) :
  D <> S754_nan ->
  SFsigned false (SF64mul D D) /\
  (SFinf D -> SF64mul D D = S754_infinity false).
Proof.
  destruct D as [s | s | | s m e]; simpl; intros H.
  - split; [destruct s; reflexivity | contradiction].
  - split; [destruct s; reflexivity | destruct s; reflexivity].
  - now elim H.
  - split; [| contradiction].
    replace (xorb s s) with false by (destruct s; reflexivity).
    apply binary_round_aux_signed. lia.
Qed.

(** The quotient mantissa of two positive mantissas is non-negative. *)
Lemma SFdiv_core_nonneg (m1 m2 : positive) (e1 e2 : Z) :
  0 <= fst (fst (SFdiv_core_binary prec emax (Zpos m1) e1 (Zpos m2) e2)).
Proof.
  unfold SFdiv_core_binary.
  set (s := _ - _ - Z.min _ _).
  set (m' := match s with Z0 => Zpos m1 | Zpos _ => Z.shiftl (Zpos m1) s | Zneg _ => 0 end).
  assert (Hm : 0 <= m').
  { unfold m'. destruct s; try lia. apply Z.shiftl_nonneg. lia. }
  pose proof (Z.div_eucl_eq m' (Zpos m2) ltac:(lia)) as E.
  pose proof (Z.mod_pos_bound m' (Zpos m2) ltac:(lia)) as B.
  pose proof (Z.div_pos m' (Zpos m2) Hm ltac:(lia)) as Q.
  unfold Z.modulo in B. unfold Z.div in Q.
  destruct (Z.div_eucl m' (Zpos m2)) as [q r]. simpl. exact Q.
Qed.

(** Dividing a non-negative value by a positive finite one keeps it
    non-negative, and keeps +inf. *)
Lemma SFdiv_pos_finite (A B : spec_float) :
  SFsigned false A ->
  (exists m e, B = S754_finite false m e) ->
  SFsigned false (SF64div A B) /\
  (SFinf A -> SF64div A B = S754_infinity false).
Proof.
  intros HA (mb & eb & ->).
  destruct A as [s | s | | s m e]; simpl in HA; try contradiction; subst s.
  - split; [reflexivity | contradiction].
  - split; [reflexivity | reflexivity].
  - split; [| contradiction].
    unfold SF64div, SFdiv.
    pose proof (SFdiv_core_nonneg m mb e eb) as N.
    destruct (SFdiv_core_binary prec emax (Zpos m) e (Zpos mb) eb) as [[mz ez] lz].
    simpl in N. apply binary_round_aux_signed. exact N.
Qed.

(** Non-negative values add up to a non-negative value, +inf if either is. *)
Lemma SFadd_nonneg (A B : spec_float) :
  SFsigned false A -> SFsigned false B ->
  SFsigned false (SF64add A B) /\
  (SFinf A \/ SFinf B -> SF64add A B = S754_infinity false).
Proof.
  intros HA HB.
  destruct A as [sa | sa | | sa ma ea], B as [sb | sb | | sb mb eb];
    simpl in HA, HB; try contradiction; subst; simpl;
    try (split; [reflexivity | intros [[] | []]; reflexivity]).
  split; [| intros [[] | []]].
  unfold binary_round.
  destruct (shl_align _ _ _) as [mz ez].
  apply binary_round_aux_signed. lia.
Qed.

Local Close Scope Z_scope.
Local Open Scope float_scope.

(** ** Comparisons and NaN *)

(** Every value but NaN compares equal to itself. *)
Lemma SFcompare_refl (f : spec_float) : f <> S754_nan -> SFcompare f f = Some Eq.
Proof.
  destruct f as [s | s | | s m e]; intros H; simpl.
  - reflexivity.
  - destruct s; reflexivity.
  - now elim H.
  - rewrite Z.compare_refl.
    change (Pos.compare_cont Eq m m) with (m ?= m)%positive.
    rewrite Pos.compare_refl. destruct s; reflexivity.
Qed.

(** [is_nan] detects exactly the NaN of the specification. *)
Lemma is_nan_Prim2SF (x : float) : is_nan x = true <-> Prim2SF x = S754_nan.
Proof.
  unfold is_nan. rewrite eqb_spec. unfold SFeqb. split.
  - intros H. destruct (Prim2SF x) eqn:E; try reflexivity;
      rewrite SFcompare_refl in H by discriminate; discriminate H.
  - intros ->. reflexivity.
Qed.

(** Swapping the operands of a comparison flips its outcome. *)
Lemma SFcompare_antisym (x y : spec_float) :
  SFcompare y x = option_map CompOpp (SFcompare x y).
Proof.
  destruct x as [sx | sx | | sx mx ex], y as [sy | sy | | sy my ey]; simpl;
    try reflexivity;
    try (destruct sx; reflexivity); try (destruct sy; reflexivity);
    try (destruct sx, sy; reflexivity).
  destruct sx, sy; simpl; try reflexivity;
    rewrite (Z.compare_antisym ex ey);
    destruct (ex ?= ey)%Z; simpl; try reflexivity.
  - rewrite (Pos.compare_cont_antisym mx my Eq). reflexivity.
  - rewrite (Pos.compare_cont_antisym mx my Eq). reflexivity.
Qed.

(** Every ordered comparison with NaN is false. *)
Lemma nan_ltb_r (x y : float) : is_nan y = true -> (x <? y) = false.
Proof.
  intros H. apply is_nan_Prim2SF in H. rewrite ltb_spec, H.
  unfold SFltb. destruct (Prim2SF x); reflexivity.
Qed.

Lemma nan_ltb_l (x y : float) : is_nan x = true -> (x <? y) = false.
Proof.
  intros H. apply is_nan_Prim2SF in H. rewrite ltb_spec, H. reflexivity.
Qed.

(** [x <= y] excludes [y < x]. *)
Lemma leb_not_gt (x y : float) : (x <=? y) = true -> (y <? x) = false.
Proof.
  rewrite leb_spec, ltb_spec. unfold SFleb, SFltb.
  rewrite (SFcompare_antisym (Prim2SF x) (Prim2SF y)).
  destruct (SFcompare (Prim2SF x) (Prim2SF y)) as [[ | | ] |]; simpl;
    intros H; try discriminate H; reflexivity.
Qed.

(** NaN propagates through +, -, *, / and sqrt. *)
Lemma nan_add_l (x y : float) : is_nan x = true -> is_nan (x + y) = true.
Proof.
  rewrite !is_nan_Prim2SF, add_spec. intros ->. reflexivity.
Qed.

Lemma nan_add_r (x y : float) : is_nan y = true -> is_nan (x + y) = true.
Proof.
  rewrite !is_nan_Prim2SF, add_spec. intros ->.
  destruct (Prim2SF x); reflexivity.
Qed.

Lemma nan_sub_l (x y : float) : is_nan x = true -> is_nan (x - y) = true.
Proof.
  rewrite !is_nan_Prim2SF, sub_spec. intros ->. reflexivity.
Qed.

Lemma nan_sub_r (x y : float) : is_nan y = true -> is_nan (x - y) = true.
Proof.
  rewrite !is_nan_Prim2SF, sub_spec. intros ->.
  destruct (Prim2SF x); reflexivity.
Qed.

Lemma nan_mul_l (x y : float) : is_nan x = true -> is_nan (x * y) = true.
Proof.
  rewrite !is_nan_Prim2SF, mul_spec. intros ->. reflexivity.
Qed.

Lemma nan_mul_r (x y : float) : is_nan y = true -> is_nan (x * y) = true.
Proof.
  rewrite !is_nan_Prim2SF, mul_spec. intros ->.
  destruct (Prim2SF x); reflexivity.
Qed.

Lemma nan_div_l (x y : float) : is_nan x = true -> is_nan (x / y) = true.
Proof.
  rewrite !is_nan_Prim2SF, div_spec. intros ->. reflexivity.
Qed.

Lemma nan_div_r (x y : float) : is_nan y = true -> is_nan (x / y) = true.
Proof.
  rewrite !is_nan_Prim2SF, div_spec. intros ->.
  destruct (Prim2SF x); reflexivity.
Qed.

Lemma nan_sqrt (x : float) : is_nan x = true -> is_nan (PrimFloat.sqrt x) = true.
Proof.
  rewrite !is_nan_Prim2SF, sqrt_spec. intros ->. reflexivity.
Qed.

(** ** Finite and infinite values *)

(** [is_nan], [is_infinity] and [is_finite] on the specification side. *)
Lemma is_nan_false_SF (x : float) : is_nan x = false -> Prim2SF x <> S754_nan.
Proof.
  intros H E. apply is_nan_Prim2SF in E. congruence.
Qed.

Lemma is_infinity_SF (x : float) : is_infinity x = true -> SFinf (Prim2SF x).
Proof.
  unfold is_infinity. rewrite eqb_spec, abs_spec.
  change (Prim2SF infinity) with (S754_infinity false).
  destruct (Prim2SF x) as [s | s | | s m e]; simpl; try discriminate; auto.
Qed.

Lemma is_finite_SF (x : float) : is_finite x = true -> SFfin (Prim2SF x).
Proof.
  unfold is_finite, is_infinity. rewrite negb_true_iff, orb_false_iff.
  intros (Hn & Hi). apply is_nan_false_SF in Hn.
  rewrite eqb_spec, abs_spec in Hi.
  change (Prim2SF infinity) with (S754_infinity false) in Hi.
  destruct (Prim2SF x) as [s | s | | s m e]; simpl in *; auto; try discriminate.
Qed.

(** ** [x < y] makes [y - x] strictly positive *)

(** The float-level statement: for binary64 numbers [x < y], the computed
    difference [y - x] is strictly positive. *)
Lemma ltb_sub_pos (x y : float) : (x <? y) = true -> (0 <? y - x) = true.
Proof.
  rewrite !ltb_spec, sub_spec. unfold SFltb at 1.
  destruct (SFcompare (Prim2SF x) (Prim2SF y)) as [[ | | ] |] eqn:C;
    try discriminate. intros _.
  pose proof (SFsub_pos _ _ (Prim2SF_valid x) (Prim2SF_valid y) C) as P.
  change (Prim2SF 0) with (S754_zero false).
  destruct (SF64sub (Prim2SF y) (Prim2SF x)) as [s | s | | s m e];
    simpl in P; try contradiction; destruct s; try contradiction; reflexivity.
Qed.

End FloatFacts.

(* ========================================================================= *)
(** * Facts about binary64 rounding and order *)

Module FloatOrder.

Import SFClass FloatFacts.

(** ** Rounding never crosses a representable number *)

Local Open Scope Z_scope.

(** [iter_pos] is plain iteration. *)
Lemma iter_pos_nat {A : Type} (f : A -> A) (p : positive) (x : A) :
  SpecFloat.iter_pos f p x = Nat.iter (Pos.to_nat p) f x.
Proof.
  revert x. induction p as [p IH | p IH |]; intros x.
  - rewrite Pos2Nat.inj_xI. cbn [SpecFloat.iter_pos]. rewrite !IH.
    replace (S (2 * Pos.to_nat p)) with (Pos.to_nat p + (Pos.to_nat p + 1))%nat by lia.
    rewrite !Nat.iter_add. reflexivity.
  - rewrite Pos2Nat.inj_xO. cbn [SpecFloat.iter_pos]. rewrite !IH.
    replace (2 * Pos.to_nat p)%nat with (Pos.to_nat p + Pos.to_nat p)%nat by lia.
    rewrite Nat.iter_add. reflexivity.
  - reflexivity.
Qed.

(** One right shift halves a non-negative mantissa, and stays exact when the
    bit shifted out is zero. *)
Lemma shr_1_value (mrs : shr_record) :
  0 <= shr_m mrs ->
  shr_m (shr_1 mrs) = shr_m mrs / 2 /\
  (loc_of_shr_record mrs = loc_Exact -> (2 | shr_m mrs) ->
   loc_of_shr_record (shr_1 mrs) = loc_Exact).
Proof.
  destruct mrs as [m r s]. cbn [shr_m]. intros H.
  destruct m as [| p | p]; [| | lia].
  - split; [reflexivity |]. destruct r, s; simpl; intros E _; congruence.
  - destruct p as [p | p |]; cbn [shr_1 shr_m]; split.
    + rewrite Pos2Z.inj_xI.
      apply Z.div_unique with (r := 1); lia.
    + intros _ (c & Hc). lia.
    + rewrite Pos2Z.inj_xO. apply Z.div_unique with (r := 0); lia.
    + destruct r, s; simpl; intros E _; congruence.
    + reflexivity.
    + intros _ (c & Hc). lia.
Qed.

Lemma iter_shr_1_value (n : nat) (mrs : shr_record) :
  0 <= shr_m mrs ->
  shr_m (Nat.iter n shr_1 mrs) = shr_m mrs / 2 ^ Z.of_nat n /\
  (loc_of_shr_record mrs = loc_Exact -> (2 ^ Z.of_nat n | shr_m mrs) ->
   loc_of_shr_record (Nat.iter n shr_1 mrs) = loc_Exact).
Proof.
  intros H. induction n as [| n (IHv & IHe)].
  - simpl. rewrite Z.div_1_r. auto.
  - change (Nat.iter (S n) shr_1 mrs) with (shr_1 (Nat.iter n shr_1 mrs)).
    assert (Hn : 0 <= shr_m (Nat.iter n shr_1 mrs)).
    { rewrite IHv. apply Z.div_pos; [exact H |]. apply Z.pow_pos_nonneg; lia. }
    destruct (shr_1_value _ Hn) as (V & E).
    rewrite Nat2Z.inj_succ, Z.pow_succ_r by lia.
    assert (P : 0 < 2 ^ Z.of_nat n) by (apply Z.pow_pos_nonneg; lia).
    split.
    + rewrite V, IHv, Z.div_div by lia. f_equal. lia.
    + intros L (c & Hc). apply E.
      * apply IHe; [exact L |]. exists (c * 2). lia.
      * rewrite IHv. exists c. rewrite Hc.
        replace (c * (2 * 2 ^ Z.of_nat n)) with (c * 2 * 2 ^ Z.of_nat n) by lia.
        rewrite Z.div_mul by lia. reflexivity.
Qed.

(** Truncation to the format: the exponent rises by [n], the mantissa is
    divided by 2^n, and an exact value on the coarser grid stays exact. *)
Lemma shr_fexp_value (m e : Z) (l : location) :
  0 <= m ->
  let n := Z.max 0 (fexp prec emax (Zdigits2 m + e) - e) in
  snd (shr_fexp prec emax m e l) = e + n /\
  shr_m (fst (shr_fexp prec emax m e l)) = m / 2 ^ n /\
  (l = loc_Exact -> (2 ^ n | m) ->
   loc_of_shr_record (fst (shr_fexp prec emax m e l)) = loc_Exact).
Proof.
  intros H n. unfold shr_fexp, shr.
  set (mrs := shr_record_of_loc m l).
  assert (Hm : shr_m mrs = m) by (unfold mrs; destruct l as [| []]; reflexivity).
  assert (Hl : l = loc_Exact -> loc_of_shr_record mrs = loc_Exact)
    by (intros ->; reflexivity).
  subst n.
  destruct (fexp prec emax (Zdigits2 m + e) - e) as [| p | p] eqn:En; cbn [fst snd].
  - rewrite Z.max_l by lia. rewrite Z.pow_0_r, Z.div_1_r, Z.add_0_r. auto.
  - rewrite Z.max_r by lia. rewrite iter_pos_nat.
    destruct (iter_shr_1_value (Pos.to_nat p) mrs ltac:(lia)) as (V & E).
    rewrite positive_nat_Z, Hm in *. auto.
  - rewrite Z.max_l by lia. rewrite Z.pow_0_r, Z.div_1_r, Z.add_0_r. auto.
Qed.

Lemma round_nearest_even_bounds (m : Z) (l : location) :
  m <= round_nearest_even m l <= m + 1 /\
  (l = loc_Exact -> round_nearest_even m l = m).
Proof.
  destruct l as [| []]; simpl; try (split; [lia | intros; congruence]).
  destruct (Z.even m); split; try lia; intros; congruence.
Qed.

(** Digits order follows value order. *)
Lemma digits_le_of_value (m : Z) (mg : positive) (d : Z) :
  0 <= d -> 0 < m -> m <= Zpos mg * 2 ^ d ->
  Zdigits2 m <= Zpos (digits2_pos mg) + d.
Proof.
  intros Hd Hm Hle. destruct m as [| p | p]; try lia. simpl Zdigits2.
  pose proof (digits2_pos_bounds p) as (L & _).
  pose proof (digits2_pos_bounds mg) as (_ & U).
  assert (P : 0 < 2 ^ d) by (apply Z.pow_pos_nonneg; lia).
  assert (Hlt : 2 ^ (Zpos (digits2_pos p) - 1) < 2 ^ (Zpos (digits2_pos mg) + d)).
  { rewrite Z.pow_add_r by lia. nia. }
  apply Z.pow_lt_mono_r_iff in Hlt; lia.
Qed.

Lemma fexp_le_target (m : Z) (mg : positive) (e eg : Z) :
  SpecFloat.bounded prec emax mg eg = true ->
  e <= eg -> 0 <= m -> m <= Zpos mg * 2 ^ (eg - e) ->
  fexp prec emax (Zdigits2 m + e) <= eg.
Proof.
  intros B He Hm Hle.
  destruct (bounded_canonical _ _ B) as (Emin & _).
  assert (C : eg = fexp prec emax (Zpos (digits2_pos mg) + eg)).
  { unfold SpecFloat.bounded, canonical_mantissa in B.
    apply andb_prop in B. destruct B as (B & _). apply Z.eqb_eq in B. lia. }
  unfold fexp, SpecFloat.emin, prec, emax in *.
  destruct (Z.eq_dec m 0) as [-> | Hn].
  - simpl Zdigits2. lia.
  - pose proof (digits_le_of_value m mg (eg - e) ltac:(lia) ltac:(lia) Hle). lia.
Qed.

(** Rounding never crosses a representable number: a value at most the
    canonical number (mg, eg) rounds to zero or to a finite number of
    exponent at most eg and of value at most mg * 2^eg. *)
Lemma binary_round_aux_below (s : bool) (m e : Z) (l : location)
      (mg : positive) (eg : Z) :
  SpecFloat.bounded prec emax mg eg = true ->
  0 <= m -> e <= eg ->
  match l with loc_Exact => m | _ => m + 1 end <= Zpos mg * 2 ^ (eg - e) ->
  binary_round_aux prec emax s m e l = S754_zero s \/
  exists m2 e2,
    binary_round_aux prec emax s m e l = S754_finite s m2 e2 /\
    e2 <= eg /\ Zpos m2 <= Zpos mg * 2 ^ (eg - e2).
Proof.
  intros B Hm He Hc.
  assert (Hc0 : m <= Zpos mg * 2 ^ (eg - e)) by (destruct l; lia).
  unfold binary_round_aux.
  destruct (shr_fexp_value m e l Hm) as (E1 & V1 & X1).
  set (n := Z.max 0 (fexp prec emax (Zdigits2 m + e) - e)) in *.
  pose proof (fexp_le_target m mg e eg B He Hm Hc0) as F1.
  destruct (shr_fexp prec emax m e l) as [mrs' e1]. cbn [fst snd] in *.
  assert (Hn : 0 <= n) by (unfold n; lia).
  assert (He1 : e1 <= eg) by (unfold n in *; lia).
  assert (Pn : 0 < 2 ^ n) by (apply Z.pow_pos_nonneg; lia).
  set (G := Zpos mg * 2 ^ (eg - e1)).
  assert (HG : Zpos mg * 2 ^ (eg - e) = G * 2 ^ n).
  { unfold G. rewrite <- Z.mul_assoc, <- Z.pow_add_r by lia. do 2 f_equal. lia. }
  rewrite HG in Hc, Hc0.
  destruct (round_nearest_even_bounds (shr_m mrs') (loc_of_shr_record mrs'))
    as ((R0 & R1) & Rx).
  set (m1 := round_nearest_even (shr_m mrs') (loc_of_shr_record mrs')) in *.
  assert (M1 : 0 <= m1 <= G).
  { split.
    - rewrite V1 in R0. pose proof (Z.div_pos m (2 ^ n) Hm Pn). lia.
    - destruct (Z.eq_dec m (G * 2 ^ n)) as [Heq | Hne].
      + (* on the grid *)
        destruct l.
        * assert (Lx : loc_of_shr_record mrs' = loc_Exact)
            by (apply X1; [reflexivity | exists G; exact Heq]).
          pose proof (Rx Lx) as Rm.
          rewrite V1, Heq, Z.div_mul in Rm by lia. lia.
        * lia.
      + assert (Hlt : m < G * 2 ^ n) by lia.
        assert (m / 2 ^ n < G) by (apply Z.div_lt_upper_bound; lia).
        lia. }
  clearbody m1. clear R0 R1 Rx V1 X1 E1.
  destruct M1 as (M1a & M1b).
  destruct (shr_fexp_value m1 e1 loc_Exact M1a) as (E2 & V2 & _).
  set (n' := Z.max 0 (fexp prec emax (Zdigits2 m1 + e1) - e1)) in *.
  pose proof (fexp_le_target m1 mg e1 eg B He1 M1a M1b) as F2.
  destruct (shr_fexp prec emax m1 e1 loc_Exact) as [mrs'' e2]. cbn [fst snd] in *.
  assert (Hn' : 0 <= n') by (unfold n'; lia).
  assert (He2 : e2 <= eg) by (unfold n' in *; lia).
  assert (Pn' : 0 < 2 ^ n') by (apply Z.pow_pos_nonneg; lia).
  assert (HG' : G = Zpos mg * 2 ^ (eg - e2) * 2 ^ n').
  { unfold G. rewrite <- Z.mul_assoc, <- Z.pow_add_r by lia. do 2 f_equal. lia. }
  assert (M2 : shr_m mrs'' <= Zpos mg * 2 ^ (eg - e2)).
  { rewrite V2. apply Z.div_le_upper_bound; [lia |]. lia. }
  assert (M2' : 0 <= shr_m mrs'') by (rewrite V2; apply Z.div_pos; lia).
  destruct (shr_m mrs'') as [| q | q]; [left; reflexivity | | lia].
  right. exists q, e2.
  assert (Hov : (e2 <=? emax - prec) = true).
  { apply Z.leb_le. unfold SpecFloat.bounded in B. apply andb_prop in B.
    destruct B as (_ & B). apply Z.leb_le in B. lia. }
  rewrite Hov. auto.
Qed.

(** Exponent-then-mantissa comparison of a rounded result with its bound. *)
Lemma SFcompare_below (m2 mg : positive) (e2 eg : Z) :
  e2 <= eg -> Zpos m2 <= Zpos mg * 2 ^ (eg - e2) ->
  SFleb (S754_finite false m2 e2) (S754_finite false mg eg) = true.
Proof.
  intros He Hm. unfold SFleb, SFcompare.
  destruct (e2 ?= eg) eqn:C.
  - apply Z.compare_eq in C. subst eg.
    rewrite Z.sub_diag, Z.pow_0_r, Z.mul_1_r in Hm.
    change (Pos.compare_cont Eq m2 mg) with (m2 ?= mg)%positive.
    destruct (m2 ?= mg)%positive eqn:Cm; try reflexivity.
    rewrite Pos.compare_gt_iff in Cm. lia.
  - reflexivity.
  - rewrite Z.compare_gt_iff in C. lia.
Qed.

(** The number one. *)
Lemma Prim2SF_one : Prim2SF 1 = S754_finite false 4503599627370496 (-52).
Proof. reflexivity. Qed.

(** A canonical positive number that compares at most one (mantissa [c] =
    2^52, exponent -52) has a mantissa of at most 2^(-e). *)
Lemma le_one_mantissa (c mk : positive) (ek : Z) :
  Zpos c = 2 ^ 52 ->
  SpecFloat.bounded prec emax mk ek = true ->
  SFleb (S754_finite false mk ek) (S754_finite false c (-52)) = true ->
  ek <= 0 /\ Zpos mk <= 2 ^ (- ek).
Proof.
  intros Hc B H. unfold SFleb, SFcompare in H.
  destruct (bounded_canonical _ _ B) as (_ & D & _).
  pose proof (digits2_pos_bounds mk) as (_ & U).
  destruct (ek ?= -52) eqn:C.
  - apply Z.compare_eq in C. subst ek. split; [lia |].
    change (Pos.compare_cont Eq mk c) with (mk ?= c)%positive in H.
    replace (- -52) with 52 by lia. rewrite <- Hc.
    destruct (mk ?= c)%positive eqn:Cm; try discriminate H.
    + apply Pos.compare_eq in Cm. subst mk. lia.
    + rewrite Pos.compare_lt_iff in Cm. lia.
  - rewrite Z.compare_lt_iff in C. split; [lia |].
    assert (P1 : 2 ^ Zpos (digits2_pos mk) <= 2 ^ prec)
      by (apply Z.pow_le_mono_r; lia).
    assert (P2 : 2 ^ prec <= 2 ^ (- ek))
      by (apply Z.pow_le_mono_r; unfold prec; lia).
    lia.
  - discriminate H.
Qed.

(** Multiplying by a factor between 0 and 1 never lengthens a finite number
    and never changes its sign. *)
Lemma SFmul_unit (c : positive) (s : bool) (mx : positive) (ex : Z) (K : spec_float) :
  Zpos c = 2 ^ 52 ->
  SpecFloat.bounded prec emax mx ex = true ->
  SpecFloat.valid_binary prec emax K = true ->
  SFleb (S754_zero false) K = true ->
  SFleb K (S754_finite false c (-52)) = true ->
  SF64mul (S754_finite s mx ex) K = S754_zero s \/
  SF64mul (S754_finite s mx ex) K = S754_zero (negb s) \/
  exists m2 e2,
    SF64mul (S754_finite s mx ex) K = S754_finite s m2 e2 /\
    SFleb (S754_finite false m2 e2) (S754_finite false mx ex) = true.
Proof.
  intros Hc BX VK K0 K1.
  destruct K as [sk | sk | | sk mk ek]; simpl in K0;
    try discriminate; try (destruct sk; discriminate).
  - simpl. destruct s, sk; auto.
  - destruct sk; [discriminate K0 |].
    simpl in VK. destruct (le_one_mantissa c mk ek Hc VK K1) as (Ek & Mk).
    unfold SF64mul, SFmul. rewrite xorb_false_r.
    destruct (binary_round_aux_below s (Zpos (mx * mk)) (ex + ek) loc_Exact
                mx ex BX ltac:(lia) ltac:(lia)) as [Z0 | (m2 & e2 & E & He & Hm)].
    + replace (ex - (ex + ek)) with (- ek) by lia.
      rewrite Pos2Z.inj_mul. nia.
    + auto.
    + right. right. exists m2, e2. split; [exact E |].
      now apply SFcompare_below.
Qed.

(** The quotient of a non-negative number by a larger one lies in [0, 1]. *)
Lemma SFdiv_unit (c : positive) (A B : spec_float) :
  c = 4503599627370496%positive ->
  SpecFloat.valid_binary prec emax A = true ->
  SpecFloat.valid_binary prec emax B = true ->
  SFleb (S754_zero false) A = true ->
  SFltb A B = true ->
  SFleb (S754_zero false) (SF64div A B) = true /\
  SFleb (SF64div A B) (S754_finite false c (-52)) = true.
Proof.
  intros Hc VA VB A0 AB.
  assert (Hc2 : Zpos c = 2 ^ 52) by (rewrite Hc; reflexivity).
  assert (Bc : SpecFloat.bounded prec emax c (-52) = true)
    by (rewrite Hc; reflexivity).
  clear Hc.
  destruct A as [sa | sa | | sa ma ea]; simpl in A0; try discriminate;
    try (destruct sa; discriminate).
  - destruct B as [sb | sb | | sb mb eb]; simpl in AB; try discriminate;
      try (destruct sb; discriminate).
    + destruct sb; [discriminate |]. simpl. destruct sa; auto.
    + destruct sb; [discriminate |]. simpl. destruct sa; auto.
  - destruct sa; [discriminate |].
    destruct B as [sb | sb | | sb mb eb]; simpl in AB; try discriminate;
      destruct sb; discriminate.
  - destruct sa; [discriminate |].
    destruct B as [sb | sb | | sb mb eb]; simpl in AB; try discriminate;
      try (destruct sb; discriminate).
    + destruct sb; [discriminate |]. simpl. auto.
    + destruct sb; [discriminate |].
      simpl in VA, VB.
      assert (Hval : ea <= eb /\ Zpos ma < Zpos mb * 2 ^ (eb - ea)).
      { unfold SFltb, SFcompare in AB.
        destruct (ea ?= eb) eqn:C; try discriminate AB.
        - apply Z.compare_eq in C. subst eb. split; [lia |].
          rewrite Z.sub_diag, Z.pow_0_r, Z.mul_1_r.
          change (Pos.compare_cont Eq ma mb) with (ma ?= mb)%positive in AB.
          destruct (ma ?= mb)%positive eqn:Cm; try discriminate AB.
          rewrite Pos.compare_lt_iff in Cm. lia.
        - rewrite Z.compare_lt_iff in C. split; [lia |].
          now apply bounded_exponent_order. }
      destruct Hval as (Hea & Hm).
      unfold SF64div, SFdiv. rewrite xorb_false_r.
      pose proof (SFdiv_core_nonneg ma mb ea eb) as N.
      assert (Hq : snd (fst (SFdiv_core_binary prec emax (Zpos ma) ea (Zpos mb) eb)) <= -52 /\
                   fst (fst (SFdiv_core_binary prec emax (Zpos ma) ea (Zpos mb) eb)) + 1
                   <= 2 ^ (- snd (fst (SFdiv_core_binary prec emax (Zpos ma) ea (Zpos mb) eb)))).
      { unfold SFdiv_core_binary. cbn [Zdigits2].
        pose proof (digits_le_of_value (Zpos ma) mb (eb - ea) ltac:(lia) ltac:(lia) ltac:(lia)) as D.
        cbn [Zdigits2] in D.
        set (e' := Z.min (fexp prec emax (Zpos (digits2_pos ma) + ea - (Zpos (digits2_pos mb) + eb))) (ea - eb)).
        assert (He' : e' <= -53 /\ e' <= ea - eb).
        { unfold e', fexp, SpecFloat.emin, prec, emax. lia. }
        remember (ea - eb - e') as sft eqn:Hs.
        set (m' := match sft with 0 => Zpos ma | Zpos _ => Z.shiftl (Zpos ma) sft | Zneg _ => 0 end).
        assert (Hm' : m' = Zpos ma * 2 ^ sft).
        { unfold m'. destruct sft as [| p | p] eqn:Es; try lia.
          rewrite Z.shiftl_mul_pow2 by lia. reflexivity. }
        assert (Ps : 0 < 2 ^ sft) by (apply Z.pow_pos_nonneg; lia).
        assert (Hlt : m' < Zpos mb * 2 ^ (- e')).
        { rewrite Hm'. replace (- e') with ((eb - ea) + sft) by lia.
          rewrite Z.pow_add_r by lia. nia. }
        pose proof (Z.div_lt_upper_bound m' (Zpos mb) (2 ^ (- e')) ltac:(lia) Hlt) as Q.
        unfold Z.div in Q.
        destruct (Z.div_eucl m' (Zpos mb)) as [q r]. cbn [fst snd] in *.
        split; lia. }
      destruct (SFdiv_core_binary prec emax (Zpos ma) ea (Zpos mb) eb) as [[mz ez] lz].
      cbn [fst snd] in *. destruct Hq as (Hez & Hmz).
      pose proof (binary_round_aux_signed false mz ez lz N) as S.
      destruct (binary_round_aux_below false mz ez lz c (-52)
                  Bc N Hez) as [Z0 | (m2 & e2 & E & He & Hm2)].
      * replace (-52 - ez) with ((- ez - 52)) by lia.
        assert (P : Zpos c * 2 ^ (- ez - 52) = 2 ^ (- ez)).
        { rewrite Hc2, <- Z.pow_add_r by lia. f_equal. lia. }
        rewrite P. destruct lz; lia.
      * rewrite Z0. auto.
      * rewrite E. split; [reflexivity |]. now apply SFcompare_below.
Qed.

Local Close Scope Z_scope.
Local Open Scope float_scope.

(** *** The same on floats *)

Lemma leb_refl (x : float) : is_nan x = false -> (x <=? x) = true.
Proof.
  intros H. apply is_nan_false_SF in H. rewrite leb_spec. unfold SFleb.
  rewrite SFcompare_refl by exact H. reflexivity.
Qed.


Lemma ltb_leb (x y : float) : (x <? y) = true -> (x <=? y) = true.
Proof.
  rewrite ltb_spec, leb_spec. unfold SFltb, SFleb.
  destruct (SFcompare (Prim2SF x) (Prim2SF y)) as [[] |]; auto.
Qed.

Lemma leb_not_nan (x y : float) :
  (x <=? y) = true -> is_nan x = false /\ is_nan y = false.
Proof.
  rewrite leb_spec. unfold SFleb. intros H.
  split.
  - destruct (is_nan x) eqn:E; [| reflexivity].
    apply is_nan_Prim2SF in E. rewrite E in H. discriminate H.
  - destruct (is_nan y) eqn:E; [| reflexivity].
    apply is_nan_Prim2SF in E. rewrite E in H.
    destruct (Prim2SF x); discriminate H.
Qed.


(** [x * k] for a finite [x >= 0] and [0 <= k <= 1] lies between 0 and x. *)
Lemma mul_unit_pos (x k : float) :
  is_finite x = true -> (0 <=? x) = true ->
  (0 <=? k) = true -> (k <=? 1) = true ->
  (0 <=? x * k) = true /\ (x * k <=? x) = true.
Proof.
  intros Hf Hx Hk0 Hk1. apply is_finite_SF in Hf.
  pose proof (Prim2SF_valid x) as VX. pose proof (Prim2SF_valid k) as VK.
  rewrite !leb_spec, ?mul_spec in *. rewrite Prim2SF_one in Hk1.
  remember 4503599627370496%positive as c eqn:Hc.
  assert (Hc2 : Zpos c = (2 ^ 52)%Z) by (rewrite Hc; reflexivity). clear Hc.
  change (Prim2SF 0) with (S754_zero false) in *.
  destruct (Prim2SF x) as [sx | sx | | sx mx ex] eqn:EX; simpl in Hf; try contradiction.
  - destruct (Prim2SF k) as [sk | sk | | sk mk ek]; simpl in Hk0;
      try discriminate; try (destruct sk; discriminate); simpl; auto.
  - destruct sx; [discriminate Hx |]. simpl in VX.
    destruct (SFmul_unit c false mx ex _ Hc2 VX VK Hk0 Hk1) as [E | [E | (m2 & e2 & E & L)]];
      rewrite E; auto.
Qed.

(** [x * k] for a finite [x <= 0] and [0 <= k <= 1] lies between x and 0. *)
Lemma mul_unit_neg (x k : float) :
  is_finite x = true -> (x <=? 0) = true ->
  (0 <=? k) = true -> (k <=? 1) = true ->
  (x <=? x * k) = true /\ (x * k <=? 0) = true.
Proof.
  intros Hf Hx Hk0 Hk1. apply is_finite_SF in Hf.
  pose proof (Prim2SF_valid x) as VX. pose proof (Prim2SF_valid k) as VK.
  rewrite !leb_spec, ?mul_spec in *. rewrite Prim2SF_one in Hk1.
  remember 4503599627370496%positive as c eqn:Hc.
  assert (Hc2 : Zpos c = (2 ^ 52)%Z) by (rewrite Hc; reflexivity). clear Hc.
  change (Prim2SF 0) with (S754_zero false) in *.
  destruct (Prim2SF x) as [sx | sx | | sx mx ex] eqn:EX; simpl in Hf; try contradiction.
  - destruct (Prim2SF k) as [sk | sk | | sk mk ek]; simpl in Hk0;
      try discriminate; try (destruct sk; discriminate); simpl; auto.
  - destruct sx; [| discriminate Hx]. simpl in VX.
    destruct (SFmul_unit c true mx ex _ Hc2 VX VK Hk0 Hk1) as [E | [E | (m2 & e2 & E & L)]];
      rewrite E; auto.
    split; [| reflexivity].
    clear - L. unfold SFleb, SFcompare in L |- *.
    rewrite (Z.compare_antisym e2 ex).
    destruct (e2 ?= ex)%Z; cbn [CompOpp].
    + rewrite (Pos.compare_cont_antisym mx m2 Eq). exact L.
    + reflexivity.
    + discriminate L.
Qed.

(** [a / b] for [0 <= a < b] lies between 0 and 1. *)
Lemma div_unit (a b : float) :
  (0 <=? a) = true -> (a <? b) = true ->
  (0 <=? a / b) = true /\ (a / b <=? 1) = true.
Proof.
  intros Ha Hab.
  rewrite !leb_spec, ?ltb_spec, ?div_spec in *. rewrite Prim2SF_one.
  change (Prim2SF 0) with (S754_zero false) in *.
  apply SFdiv_unit; auto using Prim2SF_valid.
Qed.

End FloatOrder.

(* ========================================================================= *)
(** * Properties of the landing state machine *)

Import Fsm.

(** Unfolds one [tick] down to its guards. *)
Ltac unfold_tick :=
  unfold tick, dispatch, priority_rule_fires, is_terminal, state_in,
         _transition_to, _make_output, _compute_gain,
         _handle_touchdown, _handle_abort, _handle_failsafe,
         set_abort_reason, set_prev_state, set_state in *;
  simpl in *.

(** Case analysis on the object and the snapshot, guards rewritten. *)
Ltac fsm_cases f i :=
  destruct f as [st pst ? ? ? ? ? ? ? ? ? ?];
  destruct i as [tv ? ? ? ? mav cam arm abt ? hum ?];
  unfold_tick; subst.

Lemma run_nil (f : LandingFSM) : run f [] = (f, []).
Proof. reflexivity. Qed.

Lemma run_cons (f : LandingFSM) (i : SystemInputs) (rest : list SystemInputs) :
  run f (i :: rest) =
  (fst (run (fst (tick f i)) rest),
   snd (tick f i) :: snd (run (fst (tick f i)) rest)).
Proof.
  simpl. destruct (tick f i) as [f1 o]. simpl.
  destruct (run f1 rest) as [f2 os]. reflexivity.
Qed.

(** The object [tick] returns carries the state it reports. *)
Lemma tick_output_state (f : LandingFSM) (i : SystemInputs) :
  state (snd (tick f i)) = _state (fst (tick f i)).
Proof.
  unfold tick.
  destruct (negb (mavlink_connected i) || negb (camera_connected i)); [reflexivity|].
  destruct (abort_command i); [reflexivity|].
  destruct (human_present i && _); reflexivity.
Qed.

(** One tick never leaves the set {Touchdown, Abort, Failsafe}. *)
Lemma tick_keeps_terminal (f : LandingFSM) (i : SystemInputs) :
  is_terminal (_state f) = true ->
  is_terminal (_state (fst (tick f i))) = true.
Proof.
  intros H. fsm_cases f i.
  destruct st; try discriminate H;
    destruct mav, cam, abt, hum; reflexivity.
Qed.

(** A tick on which no priority rule fires leaves a terminal object as it
    was, up to [_prev_state]. *)
Lemma tick_terminal_quiet (f : LandingFSM) (i : SystemInputs) :
  is_terminal (_state f) = true ->
  priority_rule_fires f i = false ->
  fst (tick f i) = set_prev_state f (_state f) /\
  state (snd (tick f i)) = _state f /\
  state_changed (snd (tick f i)) = false.
Proof.
  intros H Q. fsm_cases f i.
  destruct st; try discriminate H;
    destruct mav, cam, abt, hum; try discriminate Q; repeat split.
Qed.

(** Driving a reachable object keeps it reachable. *)
Lemma run_reachable (f : LandingFSM) (ins : list SystemInputs) :
  reachable f -> reachable (fst (run f ins)).
Proof.
  revert f. induction ins as [| i rest IH]; intros f Hf.
  - exact Hf.
  - rewrite run_cons. simpl. apply IH. now apply reach_tick.
Qed.

(** C1 (as stated) fails: Abort, Failsafe and Touchdown are each left by a
    plain [tick].  An FSM aborted by command goes to Failsafe when a link
    drops and back to Abort on the next abort command; a landed FSM goes to
    Abort when a human is seen. *)
Lemma terminal_state_left_without_reset :
  reachable Scenario.aborted /\
  _state Scenario.aborted = ABORT /\
  _state (fst (tick Scenario.aborted (Scenario.link_lost 1))) = FAILSAFE /\
  _state (fst (run Scenario.aborted
                   [Scenario.link_lost 1; Scenario.abort_cmd 2])) = ABORT /\
  reachable Scenario.landed /\
  _state Scenario.landed = TOUCHDOWN /\
  _state (fst (tick Scenario.landed (Scenario.human 1))) = ABORT.
Proof.
  split; [apply reach_tick, reach_init |].
  do 3 (split; [reflexivity |]).
  split; [apply run_reachable, reach_init |].
  split; reflexivity.
Qed.

(** C1 (amended): from Touchdown, Abort or Failsafe no sequence of ticks leaves
    the set {Touchdown, Abort, Failsafe}; as long as no priority rule fires
    (links up, no abort command, no human seen while in Touchdown) every tick
    reports the same state with [state_changed] false; [reset] brings the
    machine back to Init. *)
Theorem terminal_set_closed (f : LandingFSM) (ins : list SystemInputs)
  (Hterm : is_terminal (_state f) = true) :
  is_terminal (_state (fst (run f ins))) = true /\
  (Forall (fun i => priority_rule_fires f i = false) ins ->
   _state (fst (run f ins)) = _state f /\
   Forall (fun o => state o = _state f /\ state_changed o = false)
          (snd (run f ins))) /\
  _state (reset (fst (run f ins))) = INIT.
Proof.
  split; [| split; [| reflexivity]].
  - revert f Hterm. induction ins as [| i rest IH]; intros f Hterm.
    + exact Hterm.
    + rewrite run_cons. simpl. apply IH. now apply tick_keeps_terminal.
  - revert f Hterm. induction ins as [| i rest IH]; intros f Hterm Hq.
    + split; [reflexivity | constructor].
    + inversion Hq as [| ? ? Hi Hrest]; subst.
      destruct (tick_terminal_quiet f i Hterm Hi) as (Hf & Hs & Hc).
      rewrite run_cons. simpl.
      assert (Hst : _state (fst (tick f i)) = _state f)
        by (rewrite Hf; reflexivity).
      assert (Hrest' : Forall (fun i0 => priority_rule_fires (fst (tick f i)) i0 = false) rest).
      { rewrite Hf. exact Hrest. }
      destruct (IH (fst (tick f i))) as (E1 & E2); auto.
      * rewrite Hst. exact Hterm.
      * rewrite Hst in E1, E2. split; [exact E1 | constructor; auto].
Qed.

Lemma terminal_set_closed_witness :
  is_terminal (_state Scenario.landed) = true /\
  _state (fst (run Scenario.landed [Scenario.connected 1; Scenario.sighted 2]))
  = TOUCHDOWN.
Proof.
  split; [reflexivity |].
  apply (proj1 (proj2 (terminal_set_closed Scenario.landed
           [Scenario.connected 1; Scenario.sighted 2] eq_refl))).
  repeat constructor.
Defined.

(** C2 (as stated) fails: in Search with a human present, a dropped link
    yields Failsafe / "link_lost", and an abort command yields Abort with
    reason "external_command" instead of "human_present". *)
Lemma human_present_masked_by_earlier_rules :
  _state Scenario.searching = SEARCH /\
  human_present (Scenario.human_link_lost 1) = true /\
  state (snd (tick Scenario.searching (Scenario.human_link_lost 1))) = FAILSAFE /\
  abort_reason (snd (tick Scenario.searching (Scenario.human_link_lost 1)))
  = Some "link_lost"%string /\
  human_present (Scenario.human_abort_cmd 1) = true /\
  abort_reason (snd (tick Scenario.searching (Scenario.human_abort_cmd 1)))
  = Some "external_command"%string.
Proof. vm_compute. repeat split. Qed.

(** C2 (amended): with both links connected and no abort command, a snapshot
    with human_present set, taken in a state outside {Init, Idle, Abort,
    Failsafe}, makes [tick] return Abort with reason "human_present", whatever
    the remaining fields are. *)
Theorem human_present_priority (f : LandingFSM) (i : SystemInputs)
  (Hhuman : human_present i = true)
  (Hstate : state_in (_state f) [INIT; IDLE; ABORT; FAILSAFE] = false)
  (Hmav : mavlink_connected i = true)
  (Hcam : camera_connected i = true)
  (Habort : abort_command i = false) :
  state (snd (tick f i)) = ABORT /\
  abort_reason (snd (tick f i)) = Some "human_present"%string /\
  _state (fst (tick f i)) = ABORT.
Proof.
  fsm_cases f i.
  destruct st; try discriminate Hstate; repeat split.
Qed.

Lemma human_present_priority_witness :
  state (snd (tick Scenario.searching (Scenario.human 1))) = ABORT /\
  abort_reason (snd (tick Scenario.searching (Scenario.human 1)))
  = Some "human_present"%string /\
  _state (fst (tick Scenario.searching (Scenario.human 1))) = ABORT.
Proof.
  apply (human_present_priority Scenario.searching (Scenario.human 1));
    reflexivity.
Defined.

(** C3: whenever mavlink_connected or camera_connected is false, [tick]
    returns Failsafe with reason "link_lost", from every state and whatever
    the other fields (abort_command and human_present included) are. *)
Theorem link_loss_priority (f : LandingFSM) (i : SystemInputs)
  (Hlink : mavlink_connected i = false \/ camera_connected i = false) :
  state (snd (tick f i)) = FAILSAFE /\
  abort_reason (snd (tick f i)) = Some "link_lost"%string /\
  _state (fst (tick f i)) = FAILSAFE /\
  _abort_reason (fst (tick f i)) = Some "link_lost"%string.
Proof.
  fsm_cases f i.
  destruct Hlink; subst; destruct st; try destruct mav; repeat split.
Qed.

Lemma link_loss_priority_witness :
  state (snd (tick Scenario.aborted (Scenario.human_link_lost 3))) = FAILSAFE /\
  abort_reason (snd (tick Scenario.aborted (Scenario.human_link_lost 3)))
  = Some "link_lost"%string /\
  _state (fst (tick Scenario.aborted (Scenario.human_link_lost 3))) = FAILSAFE /\
  _abort_reason (fst (tick Scenario.aborted (Scenario.human_link_lost 3)))
  = Some "link_lost"%string.
Proof.
  apply (link_loss_priority Scenario.aborted (Scenario.human_link_lost 3)).
  left. reflexivity.
Defined.

(** [reset] forgets everything but the constructor arguments. *)
Lemma reset_is_init (f : LandingFSM) :
  reset f = init (_acquire_confidence f) (_align_error_m f)
                 (_abort_landability f) (_touchdown_altitude_m f)
                 (_max_variance f) (_consecutive_frames_for_acquire f)
                 (_target_lost_timeout_s f).
Proof. reflexivity. Qed.

(** C9: replaying a fixed sequence of snapshots from a fresh [reset] gives
    the same sequence of SystemOutputs, whatever either instance went through
    before its reset, provided both were built with the same thresholds. *)
Theorem tick_replay_deterministic (f1 f2 : LandingFSM) (ins : list SystemInputs)
  (Hcfg : same_config f1 f2) :
  snd (run (reset f1) ins) = snd (run (reset f2) ins).
Proof.
  rewrite (reset_is_init f1), (reset_is_init f2).
  destruct Hcfg as (-> & -> & -> & -> & -> & -> & ->).
  reflexivity.
Qed.

Lemma tick_replay_deterministic_witness :
  snd (run (reset Scenario.landed) [Scenario.connected 0; Scenario.armed 1])
  = snd (run (reset Scenario.aborted) [Scenario.connected 0; Scenario.armed 1]).
Proof.
  apply (tick_replay_deterministic Scenario.landed Scenario.aborted).
  repeat split.
Defined.

(** The timer of [_handle_target_lost] starts on a tick without target when it
    is not running, and is left alone when it already runs. *)
Lemma target_lost_timer_start (f : LandingFSM) (i : SystemInputs) :
  _last_target_time f = None ->
  PyFloat.gt (timestamp i - timestamp i)%float (_target_lost_timeout_s f) = false ->
  _handle_target_lost f i = set_last_target_time f (Some (timestamp i)).
Proof.
  intros Hnone Hle. unfold _handle_target_lost. rewrite Hnone. simpl.
  rewrite Hle. reflexivity.
Qed.

(** Once the timestamp exceeds the start time by more than the timeout, the
    machine falls back to Search and the timer is cleared. *)
Lemma target_lost_timeout (f : LandingFSM) (i : SystemInputs) (t0 : float) :
  _last_target_time f = Some t0 ->
  PyFloat.gt (timestamp i - t0)%float (_target_lost_timeout_s f) = true ->
  _state (_handle_target_lost f i) = SEARCH /\
  _last_target_time (_handle_target_lost f i) = None.
Proof.
  intros Hsome Hgt. unfold _handle_target_lost. rewrite Hsome. simpl.
  rewrite Hsome, Hgt. unfold _transition_to.
  destruct (negb (state_eqb SEARCH (_state f))) eqn:E; simpl; split; auto.
  destruct (_state f); simpl in E; try discriminate E; reflexivity.
Qed.

(** No tick with the target in view touches the timer: neither
    [_handle_align] nor [_handle_descend] assigns [_last_target_time] on that
    path. *)
Lemma target_visible_keeps_timer (f : LandingFSM) (i : SystemInputs) :
  target_visible i = true ->
  _last_target_time (_handle_align f i) = _last_target_time f /\
  _last_target_time (_handle_descend f i) = _last_target_time f.
Proof.
  intros Hv. unfold _handle_align, _handle_descend, _transition_to.
  rewrite Hv. simpl.
  split;
    repeat match goal with
           | |- context [if ?c then _ else _] => destruct c
           end; reflexivity.
Qed.

(** C4, evaluated: an aligning FSM (timeout 2 s) loses the target at t = 0,
    sees it again at t = 1 and loses it again at t = 10.  The timer started at
    t = 0 is still set after the target reappeared, so the very first tick of
    the second loss measures 10 - 0 > 2 and drops to Search; had the timer
    been cleared at t = 1, that tick would have restarted it at t = 10 and
    stayed in Align. *)
Theorem target_lost_timer_survives_reappearance :
  let f0 := Scenario.aligning in
  let f1 := fst (tick f0 (Scenario.unsighted 0)) in
  let f2 := fst (tick f1 (Scenario.sighted 1)) in
  let f3 := fst (tick f2 (Scenario.unsighted 10)) in
  let cleared := fst (tick (set_last_target_time f2 None) (Scenario.unsighted 10)) in
  (_state f0 = ALIGN /\ _last_target_time f0 = None) /\
  (_state f1 = ALIGN /\ _last_target_time f1 = Some 0%float) /\
  (_state f2 = ALIGN /\ _last_target_time f2 = Some 0%float) /\
  (_state f3 = SEARCH /\ _last_target_time f3 = None) /\
  (_state cleared = ALIGN /\ _last_target_time cleared = Some 10%float).
Proof. vm_compute. repeat split. Qed.

(* ========================================================================= *)
(** * Properties of the exponential smoother and the Kalman filter *)

Import Filtering.

Local Open Scope float_scope.

(** The distance of [_is_outlier], written out per component. *)
Lemma mahalanobis_unfold (s v m : vec3) :
  mahalanobis s v m =
  PrimFloat.sqrt
    ((c0 m - c0 s) * (c0 m - c0 s) / np_maximum (c0 v) 1e-6
     + (c1 m - c1 s) * (c1 m - c1 s) / np_maximum (c1 v) 1e-6
     + (c2 m - c2 s) * (c2 m - c2 s) / np_maximum (c2 v) 1e-6).
Proof. reflexivity. Qed.

(** A NaN component of the measurement makes the outlier distance NaN. *)
Lemma has_nan_mahalanobis (s v m : vec3) :
  has_nan m = true -> is_nan (mahalanobis s v m) = true.
Proof.
  intros H. rewrite mahalanobis_unfold. apply FloatFacts.nan_sqrt.
  unfold has_nan in H.
  apply orb_prop in H. destruct H as [H | H];
    [apply orb_prop in H; destruct H as [H | H] |].
  - do 2 apply FloatFacts.nan_add_l.
    now apply FloatFacts.nan_div_l, FloatFacts.nan_mul_l, FloatFacts.nan_sub_l.
  - apply FloatFacts.nan_add_l, FloatFacts.nan_add_r.
    now apply FloatFacts.nan_div_l, FloatFacts.nan_mul_l, FloatFacts.nan_sub_l.
  - apply FloatFacts.nan_add_r.
    now apply FloatFacts.nan_div_l, FloatFacts.nan_mul_l, FloatFacts.nan_sub_l.
Qed.

(** The blend carries a NaN component of the new sample into the result. *)
Lemma has_nan_blend (a : float) (m s : vec3) :
  has_nan m = true -> has_nan (blend a m s) = true.
Proof.
  unfold has_nan, blend, vadd, smul, vzip, vmap. cbn [c0 c1 c2]. intros H.
  apply orb_prop in H. destruct H as [H | H];
    [apply orb_prop in H; destruct H as [H | H] |].
  - rewrite (FloatFacts.nan_add_l _ _ (FloatFacts.nan_mul_r a _ H)).
    reflexivity.
  - rewrite (FloatFacts.nan_add_l _ _ (FloatFacts.nan_mul_r a _ H)).
    now rewrite orb_true_r.
  - rewrite (FloatFacts.nan_add_l _ _ (FloatFacts.nan_mul_r a _ H)).
    now rewrite orb_true_r.
Qed.

(** With a finite variance the guarded divisor max(var, 1e-6) is a positive
    finite number. *)
Lemma np_maximum_floor_positive (v : float) :
  is_finite v = true ->
  exists m e, Prim2SF (np_maximum v 1e-6) = S754_finite false m e.
Proof.
  intros Hf. pose proof (FloatFacts.is_finite_SF v Hf) as Hfin.
  unfold np_maximum, PyFloat.ge.
  assert (Hn : is_nan v = false).
  { unfold is_finite in Hf. rewrite negb_true_iff, orb_false_iff in Hf. tauto. }
  rewrite Hn, orb_false_r.
  destruct (1e-6 <=? v) eqn:Hle.
  - rewrite leb_spec in Hle. unfold SFleb in Hle.
    destruct (Prim2SF v) as [sv | sv | | sv mv ev]; simpl in Hfin;
      try contradiction.
    + vm_compute in Hle. discriminate Hle.
    + destruct sv; [vm_compute in Hle; discriminate Hle | eauto].
  - vm_compute. eauto.
Qed.

(** One term (m_i - s_i)^2 / max(v_i, 1e-6) of the squared distance: never
    NaN and never negative for a finite state and variance, and +inf as soon
    as the measurement component is infinite. *)
Lemma distance_term_signed (m s v : float) :
  is_nan m = false -> is_finite s = true -> is_finite v = true ->
  SFClass.SFsigned false
    (Prim2SF ((m - s) * (m - s) / np_maximum v 1e-6)) /\
  (is_infinity m = true ->
   Prim2SF ((m - s) * (m - s) / np_maximum v 1e-6) = S754_infinity false).
Proof.
  intros Hm Hs Hv.
  pose proof (FloatFacts.is_nan_false_SF m Hm) as Hm'.
  pose proof (FloatFacts.is_finite_SF s Hs) as Hs'.
  pose proof (np_maximum_floor_positive v Hv) as Hd.
  pose proof (FloatFacts.SFsub_not_nan _ _ Hm' Hs') as Hsub.
  rewrite <- sub_spec in Hsub.
  destruct (FloatFacts.SFmul_square _ Hsub) as (Hsq & Hsqi).
  rewrite <- mul_spec in Hsq, Hsqi.
  destruct (FloatFacts.SFdiv_pos_finite _ _ Hsq Hd) as (Hq & Hqi).
  rewrite <- div_spec in Hq, Hqi.
  split; [exact Hq |].
  intros Hinf. apply Hqi. rewrite Hsqi; [exact I |].
  rewrite sub_spec. apply FloatFacts.SFsub_inf_fin; [| exact Hs'].
  now apply FloatFacts.is_infinity_SF.
Qed.

(** An infinite component, and no NaN, against a finite state and variance:
    the outlier distance is +inf. *)
Lemma infinite_measurement_distance (s v m : vec3) :
  all_finite s = true -> all_finite v = true ->
  has_nan m = false -> has_inf m = true ->
  mahalanobis s v m = infinity.
Proof.
  unfold all_finite, has_nan, has_inf.
  rewrite !andb_true_iff, !orb_false_iff.
  intros ((Hs0 & Hs1) & Hs2) ((Hv0 & Hv1) & Hv2) ((Hn0 & Hn1) & Hn2) Hinf.
  destruct (distance_term_signed (c0 m) (c0 s) (c0 v) Hn0 Hs0 Hv0) as (Q0 & I0).
  destruct (distance_term_signed (c1 m) (c1 s) (c1 v) Hn1 Hs1 Hv1) as (Q1 & I1).
  destruct (distance_term_signed (c2 m) (c2 s) (c2 v) Hn2 Hs2 Hv2) as (Q2 & I2).
  apply Prim2SF_inj. rewrite mahalanobis_unfold, sqrt_spec.
  change (Prim2SF infinity) with (S754_infinity false).
  destruct (FloatFacts.SFadd_nonneg _ _ Q0 Q1) as (Q01 & I01).
  rewrite <- add_spec in Q01, I01.
  destruct (FloatFacts.SFadd_nonneg _ _ Q01 Q2) as (_ & I012).
  rewrite <- add_spec in I012.
  rewrite I012; [reflexivity |].
  apply orb_prop in Hinf. destruct Hinf as [Hinf | Hinf];
    [apply orb_prop in Hinf; destruct Hinf as [Hinf | Hinf] |].
  - left. rewrite I01; [exact I |]. left. rewrite (I0 Hinf). exact I.
  - left. rewrite I01; [exact I |]. right. rewrite (I1 Hinf). exact I.
  - right. rewrite (I2 Hinf). exact I.
Qed.

(** The first update of a Kalman filter stores the measurement as it is. *)
Lemma kalman_first_update (inv : matrix -> option matrix)
      (kf : KalmanFilter3D) (m : vec3) (dt : option float) :
  _initialized kf = false ->
  kalman_update inv kf m dt =
  Some (mkKalman (_dt kf) (to_list m ++ skipn 3 (_x kf)) (_P kf) (_F kf)
                 (_H kf) (_Q kf) (_R kf) true,
        kalman_pose (to_list m ++ skipn 3 (_x kf)) (_P kf))
  /\ position (kalman_pose (to_list m ++ skipn 3 (_x kf)) (_P kf)) = m.
Proof.
  intros H. unfold kalman_update. rewrite H. split; [reflexivity |].
  destruct m; reflexivity.
Qed.

(** The blend and the variance blend, component by component. *)
Lemma blend_unfold (a : float) (m s : vec3) :
  blend a m s = Vec3 (a * c0 m + (1 - a) * c0 s) (a * c1 m + (1 - a) * c1 s)
                     (a * c2 m + (1 - a) * c2 s).
Proof. reflexivity. Qed.

Lemma blend_var_unfold (a mv : float) (v : vec3) :
  blend_var a mv v = Vec3 (a * mv + (1 - a) * c0 v) (a * mv + (1 - a) * c1 v)
                          (a * mv + (1 - a) * c2 v).
Proof. reflexivity. Qed.

(** The first update of a smoother adopts the measurement, untested. *)
Lemma exp_first_update (f0 : ExpSmoother) (m : vec3) (mv ts : float) :
  _state f0 = None ->
  exists f' pose,
    exp_update f0 m mv ts = Some (f', pose) /\
    _state f' = Some m /\ position pose = m.
Proof.
  intros H0. unfold exp_update. rewrite H0. do 2 eexists. repeat split.
Qed.

(** ** A NaN measurement on an initialised Kalman filter *)

Module KalmanFacts.
Import Filtering KalmanShape FloatFacts.
Local Open Scope float_scope.

Lemma fold_add_nan_acc (l : vector) (a : float) :
  is_nan a = true -> is_nan (fold_left PrimFloat.add l a) = true.
Proof.
  revert a. induction l as [| c l IH]; intros a H; simpl; [exact H |].
  apply IH. now apply nan_add_l.
Qed.

Lemma fold_add_nan_in (l : vector) (a : float) :
  Exists (fun c => is_nan c = true) l ->
  is_nan (fold_left PrimFloat.add l a) = true.
Proof.
  intros H. revert a. induction H as [c l H | c l H IH]; intros a; simpl.
  - apply fold_add_nan_acc. now apply nan_add_r.
  - apply IH.
Qed.

(** A NaN entry of [v] that meets an entry of [u] makes [u . v] NaN. *)
Lemma dot_nan (j : nat) (u v : vector) :
  (j < List.length u)%nat -> (j < List.length v)%nat ->
  is_nan (nth j v 0) = true -> is_nan (dot u v) = true.
Proof.
  intros Hu Hv Hn. unfold dot. apply fold_add_nan_in. unfold lzip.
  revert u v Hu Hv Hn. induction j as [| j IH]; intros [| a u] [| b v] Hu Hv Hn;
    simpl in *; try lia.
  - left. now apply nan_mul_r.
  - right. apply IH; try lia. exact Hn.
Qed.

Lemma matvec_nan (j : nat) (a : matrix) (v : vector) :
  Forall (fun r => (j < List.length r)%nat) a -> (j < List.length v)%nat ->
  is_nan (nth j v 0) = true -> all_nan (matvec a v).
Proof.
  intros Ha Hv Hn. unfold all_nan, matvec. rewrite Forall_map.
  eapply Forall_impl; [| exact Ha]. intros r Hr. now apply dot_nan with (j := j).
Qed.

Lemma lzip_add_nan (u v : vector) : all_nan v -> all_nan (lzip PrimFloat.add u v).
Proof.
  unfold all_nan, lzip. intros H. revert u.
  induction H as [| c v Hc H IH]; intros [| a u]; simpl; constructor.
  - now apply nan_add_r.
  - apply IH.
Qed.

Lemma length_lzip (f : float -> float -> float) (u v : vector) :
  List.length (lzip f u v) = Nat.min (List.length u) (List.length v).
Proof. unfold lzip. now rewrite length_map, length_combine. Qed.

Lemma length_matvec (a : matrix) (v : vector) :
  List.length (matvec a v) = List.length a.
Proof. unfold matvec. apply length_map. Qed.

Lemma length_matmul (a b : matrix) : List.length (matmul a b) = List.length a.
Proof. unfold matmul. apply length_map. Qed.

Lemma rows_matmul (a b : matrix) :
  Forall (fun r => List.length r = ncols b) (matmul a b).
Proof.
  unfold matmul. rewrite Forall_map. apply Forall_forall. intros r _.
  now rewrite length_map, length_seq.
Qed.

Lemma length_madd (a b : matrix) :
  List.length (madd a b) = Nat.min (List.length a) (List.length b).
Proof. unfold madd. now rewrite length_map, length_combine. Qed.

Lemma length_set_nth {A : Type} (k : nat) (x : A) (l : list A) :
  List.length (set_nth k x l) = List.length l.
Proof.
  revert k. induction l as [| a l IH]; intros [| k]; simpl; auto.
Qed.

Lemma length_couple_velocity (F : matrix) (d : float) :
  List.length (couple_velocity F d) = List.length F.
Proof.
  unfold couple_velocity, set_entry. now rewrite !length_set_nth.
Qed.

(** A NaN component of the measurement is a NaN entry of the innovation. *)
Lemma innovation_nan (m : vec3) (hx : vector) :
  List.length hx = 3%nat -> has_nan m = true ->
  exists j, (j < 3)%nat /\
    List.length (lzip PrimFloat.sub (to_list m) hx) = 3%nat /\
    is_nan (nth j (lzip PrimFloat.sub (to_list m) hx) 0) = true.
Proof.
  intros Hl Hn.
  destruct hx as [| h0 [| h1 [| h2 [| h3 hx]]]]; try discriminate Hl.
  unfold has_nan in Hn. apply orb_prop in Hn.
  destruct Hn as [Hn | Hn]; [apply orb_prop in Hn; destruct Hn as [Hn | Hn] |].
  - exists 0%nat. repeat split; [lia |]. simpl. now apply nan_sub_l.
  - exists 1%nat. repeat split; [lia |]. simpl. now apply nan_sub_l.
  - exists 2%nat. repeat split; [lia |]. simpl. now apply nan_sub_l.
Qed.

(** On an initialised Kalman filter a measurement with a NaN component is not
    rejected: unless the matrix inversion raises, every entry of the new
    state, position and velocity, is NaN, and the pose is returned as
    valid. *)
Lemma kalman_nan_update (inv : matrix -> option matrix) (kf : KalmanFilter3D)
      (m : vec3) (dt : option float) :
  _initialized kf = true -> kalman_shaped kf -> has_nan m = true ->
  (forall S Sinv, inv S = Some Sinv -> shape 3 3 Sinv) ->
  match kalman_update inv kf m dt with
  | None => exists S, inv S = None
  | Some (kf', pose) =>
      all_nan (_x kf') /\ List.length (_x kf') = 6%nat /\
      position pose = slice3 (_x kf') 0 /\ velocity pose = slice3 (_x kf') 3 /\
      is_valid pose = true
  end.
Proof.
  intros Hi (Hx & (HP & _) & (HF & _) & (HH & _) & (HQ & _) & _) Hn Hinv.
  unfold kalman_update. rewrite Hi. cbn [negb].
  set (dF := match dt with
             | Some d => if PyFloat.ne d (_dt kf)
                         then (d, couple_velocity (_F kf) d)
                         else (_dt kf, _F kf)
             | None => (_dt kf, _F kf)
             end).
  assert (HF' : List.length (snd dF) = 6%nat).
  { unfold dF. destruct dt as [d |]; [destruct (PyFloat.ne d (_dt kf)) |];
      cbn [snd]; rewrite ?length_couple_velocity; exact HF. }
  destruct dF as [dt' F]. cbn [snd] in HF'.
  match goal with |- context [inv ?S] => destruct (inv S) as [Sinv |] eqn:E end;
    [| eexists; exact E].
  destruct (Hinv _ _ E) as (HS & HSr).
  set (x1 := matvec F (_x kf)).
  set (P1 := madd (matmul (matmul F (_P kf)) (transpose F)) (_Q kf)).
  set (K := matmul (matmul P1 (transpose (_H kf))) Sinv).
  set (y := lzip PrimFloat.sub (to_list m) (matvec (_H kf) x1)).
  destruct (innovation_nan m (matvec (_H kf) x1)
              ltac:(rewrite length_matvec; exact HH) Hn) as (j & Hj & Hy & Hyn).
  fold y in Hy, Hyn.
  assert (HK : all_nan (matvec K y)).
  { apply matvec_nan with (j := j); [| lia | exact Hyn].
    eapply Forall_impl; [| apply rows_matmul]. intros r Hr. rewrite Hr.
    unfold ncols. destruct Sinv as [| r0 Sinv]; [discriminate HS |].
    inversion HSr; subst. lia. }
  cbn [_x]. repeat split.
  - apply lzip_add_nan. exact HK.
  - rewrite length_lzip, length_matvec. unfold x1. rewrite length_matvec.
    unfold K. rewrite !length_matmul. unfold P1.
    rewrite length_madd, !length_matmul. lia.
Qed.

(** The constructor builds arrays of the documented shapes, and the first
    update keeps them. *)
Lemma kalman_init_shaped (q r dt : float) : kalman_shaped (kalman_init q r dt).
Proof.
  unfold kalman_shaped, shape. cbn. repeat split; repeat constructor.
Qed.

Lemma tracking_kalman_shaped : kalman_shaped FilterScenario.tracking_kalman.
Proof.
  unfold kalman_shaped, shape. cbn. repeat split; repeat constructor.
Qed.

Lemma identity_inverse_shape (S Sinv : matrix) :
  FilterScenario.identity_inverse S = Some Sinv -> shape 3 3 Sinv.
Proof.
  intros E. injection E as <-. unfold shape. cbn. repeat split; repeat constructor.
Qed.

(** A state of six NaN entries reads back as a NaN position and velocity. *)
Lemma all_nan_slices (x : vector) :
  all_nan x -> List.length x = 6%nat ->
  has_nan (slice3 x 0) = true /\ has_nan (slice3 x 3) = true.
Proof.
  intros Hn Hl.
  destruct x as [| x0 [| x1 [| x2 [| x3 [| x4 [| x5 [| x6 x]]]]]]];
    try discriminate Hl.
  unfold all_nan in Hn. rewrite !Forall_cons_iff in Hn.
  destruct Hn as (H0 & _ & _ & H3 & _).
  unfold has_nan, slice3. simpl. now rewrite H0, H3.
Qed.

End KalmanFacts.

Import KalmanShape KalmanFacts.

Section InitialisedSmoother.

(** A smoother that has seen a first measurement: position [s], variance [v]. *)
Variable f : ExpSmoother.
Variables s v : vec3.
Hypothesis Hs : _state f = Some s.
Hypothesis Hv : _variance f = Some v.

(** The pair [update] returns: the object with its new position, variance,
    last timestamp and velocity, and the pose reporting them. *)
Let updated (s' v' : vec3) (last : option float) (vel : vec3) (ts : float)
  : option (ExpSmoother * FilteredPose) :=
  Some (mkExp (_alpha f) (_outlier_threshold f) (_initial_variance f)
              (Some s') (Some v') last vel,
        mkPose s' v' vel true ts).

(** [_is_outlier] is the comparison of the distance with the threshold. *)
Lemma is_outlier_initialised (m : vec3) :
  _is_outlier f m = PyFloat.gt (mahalanobis s v m) (_outlier_threshold f).
Proof. unfold _is_outlier. rewrite Hs, Hv. reflexivity. Qed.

(** What a rejected sample does. *)
Lemma exp_update_rejected (m : vec3) (mv ts : float) :
  _is_outlier f m = true ->
  exp_update f m mv ts = updated s (vmuls v 1.5) (_last_time f) (_velocity f) ts.
Proof.
  intros Hout. unfold exp_update. rewrite Hs, Hout, Hv. reflexivity.
Qed.

(** What an accepted sample does when the velocity guard is false ... *)
Lemma exp_update_accepted_stale (m : vec3) (mv ts : float) :
  _is_outlier f m = false ->
  (forall last, _last_time f = Some last -> PyFloat.gt ts last = false) ->
  exp_update f m mv ts =
  updated (blend (_alpha f) m s) (blend_var (_alpha f) mv v) (Some ts)
          (_velocity f) ts.
Proof.
  intros Hacc Hg. unfold exp_update. rewrite Hs, Hacc, Hv.
  destruct (_last_time f) as [last |]; [| reflexivity].
  rewrite (Hg last eq_refl). reflexivity.
Qed.

(** ... and when it is true. *)
Lemma exp_update_accepted_fresh (m : vec3) (mv ts last : float) :
  _is_outlier f m = false ->
  _last_time f = Some last -> PyFloat.gt ts last = true ->
  exp_update f m mv ts =
  updated (blend (_alpha f) m s) (blend_var (_alpha f) mv v) (Some ts)
          (blend (_alpha f) (vdivs (vsub m s) (ts - last)) (_velocity f)) ts.
Proof.
  intros Hacc Hl Hg. unfold exp_update. rewrite Hs, Hacc, Hv, Hl, Hg.
  reflexivity.
Qed.

(** Either way position and variance are blended. *)
Lemma exp_update_accepted (m : vec3) (mv ts : float) :
  _is_outlier f m = false ->
  exists vel,
    exp_update f m mv ts =
    updated (blend (_alpha f) m s) (blend_var (_alpha f) mv v) (Some ts) vel ts.
Proof.
  intros Hacc.
  destruct (_last_time f) as [last |] eqn:El.
  - destruct (PyFloat.gt ts last) eqn:Eg.
    + eexists. now apply exp_update_accepted_fresh with (last := last).
    + eexists. apply exp_update_accepted_stale; [exact Hacc |].
      intros l E. rewrite El in E. injection E as <-. exact Eg.
  - eexists. apply exp_update_accepted_stale; [exact Hacc |].
    intros l E. rewrite El in E. discriminate E.
Qed.

(** C6: on an initialised smoother with state [s] and variance [v], a
    measurement whose distance sqrt(sum((m_i - s_i)^2 / max(v_i, 1e-6)))
    exceeds the outlier threshold leaves the stored position, velocity and
    last timestamp as they were, multiplies each variance component by 1.5 and
    returns the unchanged position and velocity. *)
Theorem outlier_rejection_effect (m : vec3) (mv ts : float)
  (Hfar : PyFloat.gt (mahalanobis s v m) (_outlier_threshold f) = true) :
  let v' := Vec3 (c0 v * 1.5) (c1 v * 1.5) (c2 v * 1.5) in
  exp_update f m mv ts =
  Some (mkExp (_alpha f) (_outlier_threshold f) (_initial_variance f)
              (Some s) (Some v') (_last_time f) (_velocity f),
        mkPose s v' (_velocity f) true ts).
Proof.
  intros v'. apply exp_update_rejected.
  rewrite is_outlier_initialised. exact Hfar.
Qed.

(** C8: an accepted sample moves the state to
    alpha * measurement + (1 - alpha) * state and the variance to
    alpha * measurement_variance + (1 - alpha) * variance, component by
    component; with alpha = 0.5, update([1,1,1], t=0) returns position
    [1,1,1] and the following update([3,1,1], t=1) returns [2,1,1]. *)
Theorem exp_smoother_accepted_update (m : vec3) (mv ts : float)
  (Hacc : _is_outlier f m = false) :
  let a := _alpha f in
  let s' := Vec3 (a * c0 m + (1 - a) * c0 s) (a * c1 m + (1 - a) * c1 s)
                 (a * c2 m + (1 - a) * c2 s) in
  let v' := Vec3 (a * mv + (1 - a) * c0 v) (a * mv + (1 - a) * c1 v)
                 (a * mv + (1 - a) * c2 v) in
  (exists f' pose,
      exp_update f m mv ts = Some (f', pose) /\
      _state f' = Some s' /\ _variance f' = Some v' /\
      position pose = s' /\ variance pose = v') /\
  (exists f0 f1 p1 f2 p2,
      exp_init 0.5 4.0 1.0 = Some f0 /\
      exp_update f0 (Vec3 1 1 1) 0.1 0 = Some (f1, p1) /\
      position p1 = Vec3 1 1 1 /\
      exp_update f1 (Vec3 3 1 1) 0.1 1 = Some (f2, p2) /\
      position p2 = Vec3 2 1 1).
Proof.
  split.
  - destruct (exp_update_accepted m mv ts Hacc) as (vel & E).
    do 2 eexists. split; [exact E |]. repeat split.
  - do 5 eexists. repeat split.
Qed.

(** C10: on an initialised smoother an accepted sample whose timestamp is not
    later than the stored one still blends position and variance but leaves
    the velocity estimate as it was.  The finite difference is divided by
    dt = timestamp - last_timestamp only on the branch guarded by
    timestamp > last_timestamp, and there dt > 0; whenever dt > 0 fails the
    velocity is untouched. *)
Theorem stale_timestamp_keeps_velocity (m : vec3) (mv ts last : float)
  (Hl : _last_time f = Some last) (Hacc : _is_outlier f m = false) :
  let a := _alpha f in
  let s' := Vec3 (a * c0 m + (1 - a) * c0 s) (a * c1 m + (1 - a) * c1 s)
                 (a * c2 m + (1 - a) * c2 s) in
  let v' := Vec3 (a * mv + (1 - a) * c0 v) (a * mv + (1 - a) * c1 v)
                 (a * mv + (1 - a) * c2 v) in
  let result vel :=
    Some (mkExp a (_outlier_threshold f) (_initial_variance f)
                (Some s') (Some v') (Some ts) vel,
          mkPose s' v' vel true ts) in
  let dt := ts - last in
  (PyFloat.le ts last = true -> exp_update f m mv ts = result (_velocity f)) /\
  (PyFloat.gt dt 0 = false -> exp_update f m mv ts = result (_velocity f)) /\
  (PyFloat.gt ts last = true ->
   PyFloat.gt dt 0 = true /\
   exp_update f m mv ts =
   result (blend a (Vec3 ((c0 m - c0 s) / dt) ((c1 m - c1 s) / dt)
                         ((c2 m - c2 s) / dt))
                 (_velocity f))).
Proof.
  intros a s' v' result dt.
  assert (Hno : PyFloat.gt ts last = false ->
                exp_update f m mv ts = result (_velocity f)).
  { intros Hg. apply exp_update_accepted_stale; [exact Hacc |].
    intros l E. rewrite Hl in E. injection E as <-. exact Hg. }
  split; [| split].
  - intros Hle. apply Hno. unfold PyFloat.gt, PyFloat.le in *.
    now apply FloatFacts.leb_not_gt.
  - intros Hdt. apply Hno.
    destruct (PyFloat.gt ts last) eqn:Hg; [| reflexivity].
    unfold PyFloat.gt, dt in *.
    rewrite (FloatFacts.ltb_sub_pos last ts Hg) in Hdt. discriminate Hdt.
  - intros Hg. split.
    + unfold PyFloat.gt, dt in *. now apply FloatFacts.ltb_sub_pos.
    + now apply exp_update_accepted_fresh.
Qed.

(** C5 (amended): neither filter tests its measurement for finiteness.  On an
    initialised smoother a sample is rejected exactly when the computed
    distance sqrt(sum((m_i - s_i)^2 / max(v_i, 1e-6))) compares greater than
    the threshold, and is blended in otherwise.  A measurement with a NaN
    component makes that distance NaN and the comparison false, so the sample
    is accepted: the update does not raise and the NaN is blended into the
    stored position.  A measurement with an infinite component and no NaN,
    against a finite state and variance and a threshold below +inf, has
    distance +inf and is rejected, leaving position and velocity untouched.
    The first update of either filter adopts any measurement as its
    position.  An initialised Kalman filter has no gate: with a NaN component
    in the measurement, and unless the matrix inversion raises, every entry
    of its new state is NaN and the pose is returned as valid. *)
Theorem nonfinite_measurement_handling (mv ts : float) :
  (forall m : vec3,
      let d := PrimFloat.sqrt
                 ((c0 m - c0 s) * (c0 m - c0 s) / np_maximum (c0 v) 1e-6
                  + (c1 m - c1 s) * (c1 m - c1 s) / np_maximum (c1 v) 1e-6
                  + (c2 m - c2 s) * (c2 m - c2 s) / np_maximum (c2 v) 1e-6) in
      _is_outlier f m = PyFloat.gt d (_outlier_threshold f) /\
      (PyFloat.gt d (_outlier_threshold f) = true ->
       exp_update f m mv ts =
       Some (mkExp (_alpha f) (_outlier_threshold f) (_initial_variance f)
                   (Some s) (Some (vmuls v 1.5)) (_last_time f) (_velocity f),
             mkPose s (vmuls v 1.5) (_velocity f) true ts)) /\
      (PyFloat.gt d (_outlier_threshold f) = false ->
       exists vel,
         exp_update f m mv ts =
         Some (mkExp (_alpha f) (_outlier_threshold f) (_initial_variance f)
                     (Some (blend (_alpha f) m s))
                     (Some (blend_var (_alpha f) mv v)) (Some ts) vel,
               mkPose (blend (_alpha f) m s) (blend_var (_alpha f) mv v)
                      vel true ts))) /\
  (forall m : vec3,
      has_nan m = true ->
      _is_outlier f m = false /\
      exists f' pose,
        exp_update f m mv ts = Some (f', pose) /\
        _state f' = Some (blend (_alpha f) m s) /\
        position pose = blend (_alpha f) m s /\
        has_nan (position pose) = true /\
        is_valid pose = true) /\
  (forall m : vec3,
      all_finite s = true -> all_finite v = true ->
      has_nan m = false -> has_inf m = true ->
      PyFloat.lt (_outlier_threshold f) infinity = true ->
      _is_outlier f m = true /\
      exp_update f m mv ts =
      Some (mkExp (_alpha f) (_outlier_threshold f) (_initial_variance f)
                  (Some s) (Some (vmuls v 1.5)) (_last_time f) (_velocity f),
            mkPose s (vmuls v 1.5) (_velocity f) true ts)) /\
  (forall (f0 : ExpSmoother) (m0 : vec3) (mv0 ts0 : float),
      _state f0 = None ->
      exists f' pose,
        exp_update f0 m0 mv0 ts0 = Some (f', pose) /\
        _state f' = Some m0 /\ position pose = m0) /\
  (forall (inv : matrix -> option matrix) (kf : KalmanFilter3D) (m0 : vec3)
          (dt : option float),
      _initialized kf = false ->
      exists kf' pose,
        kalman_update inv kf m0 dt = Some (kf', pose) /\
        slice3 (_x kf') 0 = m0 /\ position pose = m0) /\
  (forall (inv : matrix -> option matrix) (kf : KalmanFilter3D) (m : vec3)
          (dt : option float),
      _initialized kf = true -> kalman_shaped kf -> has_nan m = true ->
      (forall S Sinv, inv S = Some Sinv -> shape 3 3 Sinv) ->
      match kalman_update inv kf m dt with
      | None => exists S, inv S = None
      | Some (kf', pose) =>
          all_nan (_x kf') /\
          position pose = slice3 (_x kf') 0 /\
          has_nan (position pose) = true /\
          has_nan (velocity pose) = true /\
          is_valid pose = true
      end).
Proof.
  split; [| split; [| split; [| split; [| split]]]].
  - intros m d. subst d. rewrite <- mahalanobis_unfold.
    rewrite <- is_outlier_initialised. split; [reflexivity |]. split.
    + intros Hout. now apply exp_update_rejected.
    + intros Hacc. now apply exp_update_accepted.
  - intros m Hnan.
    assert (Hacc : _is_outlier f m = false).
    { rewrite is_outlier_initialised. unfold PyFloat.gt.
      apply FloatFacts.nan_ltb_r, has_nan_mahalanobis, Hnan. }
    split; [exact Hacc |].
    destruct (exp_update_accepted m mv ts Hacc) as (vel & E).
    do 2 eexists. split; [exact E |]. cbn [_state position is_valid].
    repeat split. now apply has_nan_blend.
  - intros m Hfs Hfv Hnn Hinf Hthr.
    assert (Hout : _is_outlier f m = true).
    { rewrite is_outlier_initialised.
      rewrite (infinite_measurement_distance s v m Hfs Hfv Hnn Hinf).
      exact Hthr. }
    split; [exact Hout |]. now apply exp_update_rejected.
  - intros f0 m0 mv0 ts0. apply exp_first_update.
  - intros inv kf m0 dt Hi.
    destruct (kalman_first_update inv kf m0 dt Hi) as (E & P).
    do 2 eexists. split; [exact E |]. split; [| exact P].
    destruct m0; reflexivity.
  - intros inv kf m dt Hi Hsh Hnan Hinv.
    pose proof (kalman_nan_update inv kf m dt Hi Hsh Hnan Hinv) as H.
    destruct (kalman_update inv kf m dt) as [[kf' pose] |]; [| exact H].
    destruct H as (Hall & Hlen & Hp & Hvel & Hval).
    destruct (all_nan_slices _ Hall Hlen) as (Np & Nv).
    rewrite Hp, Hvel. auto.
Qed.

End InitialisedSmoother.

Lemma outlier_rejection_effect_witness :
  exp_update FilterScenario.strict_smoother_at_origin (Vec3 100 100 100) 0.1 0.1
  = Some (mkExp 0.3 2 1 (Some (Vec3 0 0 0)) (Some (Vec3 1.5 1.5 1.5)) (Some 0)
                (Vec3 0 0 0),
          mkPose (Vec3 0 0 0) (Vec3 1.5 1.5 1.5) (Vec3 0 0 0) true 0.1).
Proof.
  apply (outlier_rejection_effect FilterScenario.strict_smoother_at_origin
           (Vec3 0 0 0) (Vec3 1 1 1) eq_refl eq_refl (Vec3 100 100 100) 0.1 0.1).
  reflexivity.
Defined.

Lemma exp_smoother_accepted_update_witness :
  exists f' pose,
    exp_update FilterScenario.half_smoother_at_one (Vec3 3 1 1) 0.1 1
    = Some (f', pose) /\
    _state f' = Some (Vec3 2 1 1) /\
    _variance f' = Some (Vec3 0.55 0.55 0.55) /\
    position pose = Vec3 2 1 1 /\
    variance pose = Vec3 0.55 0.55 0.55.
Proof.
  exact (proj1 (exp_smoother_accepted_update
           FilterScenario.half_smoother_at_one (Vec3 1 1 1) (Vec3 1 1 1)
           eq_refl eq_refl (Vec3 3 1 1) 0.1 1 eq_refl)).
Defined.

Lemma stale_timestamp_keeps_velocity_witness :
  exp_update FilterScenario.half_smoother_at_one (Vec3 3 1 1) 0.1 0
  = Some (mkExp 0.5 4 1 (Some (Vec3 2 1 1)) (Some (Vec3 0.55 0.55 0.55))
                (Some 0) (Vec3 0 0 0),
          mkPose (Vec3 2 1 1) (Vec3 0.55 0.55 0.55) (Vec3 0 0 0) true 0).
Proof.
  apply (proj1 (stale_timestamp_keeps_velocity
                  FilterScenario.half_smoother_at_one (Vec3 1 1 1) (Vec3 1 1 1)
                  eq_refl eq_refl (Vec3 3 1 1) 0.1 0 0 eq_refl eq_refl)).
  reflexivity.
Defined.

(** C5 (as stated) fails: a default smoother sitting at the origin does not
    flag the measurement [nan, 0, 0] as an outlier; it blends it in, the
    stored position and velocity become NaN, and the pose is returned as
    valid.  A fresh smoother and a fresh Kalman filter adopt the same
    measurement as their position on the first update.  A Kalman filter that
    has seen [0, 0, 0] takes [nan, 0, 0] into its state whatever 3x3 matrix
    the inversion returns; with the identity returned, position and velocity
    are NaN in every component. *)
Lemma nan_measurement_enters_filter_state :
  exp_init 0.35 4.0 1.0 = Some FilterScenario.fresh_smoother /\
  (exists pose,
      exp_update FilterScenario.fresh_smoother (Vec3 0 0 0) 0.1 0
      = Some (FilterScenario.smoother_at_origin, pose)) /\
  _is_outlier FilterScenario.smoother_at_origin (Vec3 nan 0 0) = false /\
  (exists f' pose,
      exp_update FilterScenario.smoother_at_origin (Vec3 nan 0 0) 0.1 1
      = Some (f', pose) /\
      _state f' = Some (Vec3 nan 0 0) /\
      _velocity f' = Vec3 nan 0 0 /\
      position pose = Vec3 nan 0 0 /\
      is_valid pose = true) /\
  (exists f' pose,
      exp_update FilterScenario.fresh_smoother (Vec3 nan 0 0) 0.1 0
      = Some (f', pose) /\
      _state f' = Some (Vec3 nan 0 0)) /\
  (exists kf' pose,
      kalman_update FilterScenario.no_inverse FilterScenario.fresh_kalman
                    (Vec3 nan 0 0) None = Some (kf', pose) /\
      _x kf' = [nan; 0; 0; 0; 0; 0] /\
      position pose = Vec3 nan 0 0 /\
      is_valid pose = true) /\
  (forall inv : matrix -> option matrix,
      (forall S Sinv, inv S = Some Sinv -> shape 3 3 Sinv) ->
      match kalman_update inv FilterScenario.tracking_kalman (Vec3 nan 0 0) None with
      | None => exists S, inv S = None
      | Some (kf', pose) =>
          all_nan (_x kf') /\ has_nan (position pose) = true /\
          is_valid pose = true
      end) /\
  (exists kf' pose,
      kalman_update FilterScenario.identity_inverse FilterScenario.tracking_kalman
                    (Vec3 nan 0 0) None = Some (kf', pose) /\
      _x kf' = [nan; nan; nan; nan; nan; nan] /\
      position pose = Vec3 nan nan nan /\
      velocity pose = Vec3 nan nan nan /\
      is_valid pose = true).
Proof.
  repeat match goal with |- _ /\ _ => split end; try reflexivity.
  - eexists. reflexivity.
  - do 2 eexists. repeat split.
  - do 2 eexists. repeat split.
  - do 2 eexists. repeat split.
  - intros inv Hinv.
    pose proof (kalman_nan_update inv FilterScenario.tracking_kalman
                  (Vec3 nan 0 0) None eq_refl
                  tracking_kalman_shaped eq_refl Hinv) as H.
    destruct (kalman_update inv FilterScenario.tracking_kalman (Vec3 nan 0 0) None)
      as [[kf' pose] |]; [| exact H].
    destruct H as (Hall & Hlen & Hp & _ & Hval).
    destruct (all_nan_slices _ Hall Hlen) as (Np & _).
    rewrite Hp. auto.
  - do 2 eexists. repeat split.
Qed.

Lemma nonfinite_measurement_handling_witness :
  _is_outlier FilterScenario.strict_smoother_at_origin (Vec3 100 100 100) = true /\
  _is_outlier FilterScenario.strict_smoother_at_origin (Vec3 1 0 0) = false /\
  _is_outlier FilterScenario.smoother_at_origin (Vec3 0 nan 0) = false /\
  exp_update FilterScenario.smoother_at_origin (Vec3 0 neg_infinity 0) 0.1 1
  = Some (mkExp 0.35 4 1 (Some (Vec3 0 0 0)) (Some (Vec3 1.5 1.5 1.5))
                (Some 0) (Vec3 0 0 0),
          mkPose (Vec3 0 0 0) (Vec3 1.5 1.5 1.5) (Vec3 0 0 0) true 1) /\
  (exists kf' pose,
      kalman_update FilterScenario.identity_inverse FilterScenario.tracking_kalman
                    (Vec3 0 nan 0) None = Some (kf', pose) /\
      has_nan (position pose) = true /\ is_valid pose = true).
Proof.
  pose proof (nonfinite_measurement_handling
                FilterScenario.strict_smoother_at_origin (Vec3 0 0 0) (Vec3 1 1 1)
                eq_refl eq_refl 0.1 1) as (Hgate & _).
  pose proof (nonfinite_measurement_handling
                FilterScenario.smoother_at_origin (Vec3 0 0 0) (Vec3 1 1 1)
                eq_refl eq_refl 0.1 1) as (_ & Hnan & Hinf & _ & _ & Hkal).
  split; [| split; [| split; [| split]]].
  - exact (proj1 (Hgate (Vec3 100 100 100))).
  - exact (proj1 (Hgate (Vec3 1 0 0))).
  - exact (proj1 (Hnan (Vec3 0 nan 0) eq_refl)).
  - exact (proj2 (Hinf (Vec3 0 neg_infinity 0)
                       eq_refl eq_refl eq_refl eq_refl eq_refl)).
  - specialize (Hkal FilterScenario.identity_inverse
                     FilterScenario.tracking_kalman (Vec3 0 nan 0) None eq_refl
                     tracking_kalman_shaped eq_refl
                     identity_inverse_shape).
    destruct (kalman_update FilterScenario.identity_inverse
                FilterScenario.tracking_kalman (Vec3 0 nan 0) None)
      as [[kf' pose] |] eqn:E; [| discriminate E].
    exists kf', pose. split; [reflexivity |]. tauto.
Defined.

(* ========================================================================= *)
(** * Properties of the velocity clamp *)

Module ClampFacts.

Import PyArith SafetyClamp FloatFacts FloatOrder.
Local Open Scope float_scope.

(** A number above a non-negative one is not zero. *)
Lemma above_nonneg_not_zero (l s : float) :
  (0 <=? l) = true -> (l <? s) = true -> (s =? 0) = false.
Proof.
  rewrite leb_spec, ltb_spec, eqb_spec. change (Prim2SF 0) with (S754_zero false).
  unfold SFleb, SFltb, SFeqb.
  destruct (Prim2SF l) as [sl | sl | | sl ml el], (Prim2SF s) as [ss | ss | | ss ms es];
    simpl; try discriminate; try reflexivity;
    try (destruct sl; discriminate); try (destruct ss; try discriminate; reflexivity);
    try (destruct sl, ss; try discriminate; reflexivity).
Qed.

Section Libm.

Variable libm_pow : float -> float -> float.

Section Limits.

Variable limits : SafetyLimits.
Variable confidence : float.
Hypothesis Hlat : PyFloat.le 0 (max_lateral_speed_mps limits) = true.
Hypothesis Hlatf : is_finite (max_lateral_speed_mps limits) = true.
Hypothesis Hdesc : PyFloat.le 0 (max_descent_speed_mps limits) = true.
Hypothesis Hdescf : is_finite (max_descent_speed_mps limits) = true.
Hypothesis Hc0 : PyFloat.le 0 confidence = true.
Hypothesis Hc1 : PyFloat.le confidence 1 = true.

Let lat_limit := max_lateral_speed_mps limits * confidence.
Let desc_limit := max_descent_speed_mps limits * confidence.

Lemma lat_limit_range :
  PyFloat.le 0 lat_limit = true /\
  PyFloat.le lat_limit (max_lateral_speed_mps limits) = true.
Proof. unfold PyFloat.le in *. now apply mul_unit_pos. Qed.


(** With the speed computed, the clamp cannot raise: the divisor is above a
    non-negative limit. *)
Lemma clamp_velocity_some (vx vy vz speed : float) :
  lateral_speed_of libm_pow vx vy = Some speed ->
  clamp_velocity libm_pow limits vx vy vz confidence =
  Some (if PyFloat.gt speed lat_limit then vx * (lat_limit / speed) else vx,
        if PyFloat.gt speed lat_limit then vy * (lat_limit / speed) else vy,
        if PyFloat.gt vz desc_limit then desc_limit else vz).
Proof.
  intros Hs. unfold clamp_velocity. rewrite Hs. fold lat_limit desc_limit.
  destruct (PyFloat.gt speed lat_limit) eqn:G; [| reflexivity].
  unfold truediv.
  rewrite (above_nonneg_not_zero lat_limit speed (proj1 lat_limit_range) G).
  reflexivity.
Qed.

Lemma clamp_velocity_none (vx vy vz : float) :
  lateral_speed_of libm_pow vx vy = None ->
  clamp_velocity libm_pow limits vx vy vz confidence = None.
Proof. intros Hs. unfold clamp_velocity. rewrite Hs. reflexivity. Qed.


End Limits.

End Libm.

End ClampFacts.

Import PyArith SafetyClamp FloatOrder ClampFacts.


Section ClampWithinLimits.

Variable libm_pow : float -> float -> float.
Variable limits : SafetyLimits.
Variable confidence : float.
Hypothesis Hlat : PyFloat.le 0 (max_lateral_speed_mps limits) = true.
Hypothesis Hlatf : is_finite (max_lateral_speed_mps limits) = true.
Hypothesis Hdesc : PyFloat.le 0 (max_descent_speed_mps limits) = true.
Hypothesis Hdescf : is_finite (max_descent_speed_mps limits) = true.
Hypothesis Hc0 : PyFloat.le 0 confidence = true.
Hypothesis Hc1 : PyFloat.le confidence 1 = true.


(** X15: under the same limits, for a finite command, [clamp_velocity] never
    reverses or lengthens a lateral component: the returned vx lies between
    0 and vx, the returned vy between 0 and vy, rounding included; and the
    returned vz never exceeds vz. *)
Theorem clamp_keeps_direction (vx vy vz vx' vy' vz' : float)
  (Hfx : is_finite vx = true) (Hfy : is_finite vy = true)
  (Hret : clamp_velocity libm_pow limits vx vy vz confidence = Some (vx', vy', vz')) :
  (PyFloat.le 0 vx = true -> PyFloat.le 0 vx' = true /\ PyFloat.le vx' vx = true) /\
  (PyFloat.le vx 0 = true -> PyFloat.le vx vx' = true /\ PyFloat.le vx' 0 = true) /\
  (PyFloat.le 0 vy = true -> PyFloat.le 0 vy' = true /\ PyFloat.le vy' vy = true) /\
  (PyFloat.le vy 0 = true -> PyFloat.le vy vy' = true /\ PyFloat.le vy' 0 = true) /\
  (is_nan vz = false -> PyFloat.le vz' vz = true).
Proof.
  pose proof (lat_limit_range limits confidence Hlat Hlatf Hc0 Hc1) as (HL & _).
  destruct (lateral_speed_of libm_pow vx vy) as [speed |] eqn:Es;
    [| rewrite (clamp_velocity_none libm_pow limits confidence vx vy vz Es) in Hret;
       discriminate Hret].
  rewrite (clamp_velocity_some libm_pow limits confidence Hlat Hlatf Hc0 Hc1
             vx vy vz speed Es) in Hret.
  injection Hret as <- <- <-.
  assert (Hnx : is_nan vx = false).
  { unfold is_finite in Hfx. rewrite negb_true_iff, orb_false_iff in Hfx. tauto. }
  assert (Hny : is_nan vy = false).
  { unfold is_finite in Hfy. rewrite negb_true_iff, orb_false_iff in Hfy. tauto. }
  unfold PyFloat.le, PyFloat.gt in *.
  destruct (_ <? speed) eqn:G.
  - destruct (div_unit _ _ HL G) as (K0 & K1).
    repeat match goal with |- _ /\ _ => split end; intros Hsgn;
      try (now apply mul_unit_pos); try (now apply mul_unit_neg).
    destruct (_ <? vz) eqn:Gz; [now apply ltb_leb | now apply leb_refl].
  - repeat match goal with |- _ /\ _ => split end; intros Hsgn;
      try (split; [assumption | now apply leb_refl]);
      try (split; [now apply leb_refl | assumption]).
    destruct (_ <? vz) eqn:Gz; [now apply ltb_leb | now apply leb_refl].
Qed.

End ClampWithinLimits.


Lemma clamp_keeps_direction_witness :
  PyFloat.le 0 0.8999999999999999 = true /\ PyFloat.le 0.8999999999999999 3 = true.
Proof.
  exact (proj1 (clamp_keeps_direction rounded_pow default_limits 1
                  eq_refl eq_refl eq_refl eq_refl 3 4 1 0.8999999999999999 1.2 0.7
                  eq_refl eq_refl eq_refl) eq_refl).
Defined.


(* ========================================================================= *)
(** * Further properties of the landing state machine *)

Module FsmMore.

Import Fsm FsmGraph.

Local Close Scope R_scope.
Local Open Scope Z_scope.

(** Splits every guard met in the goal, remembering its value. *)
Ltac split_guards :=
  repeat (cbv beta iota;
          match goal with
          | |- context [if ?c then _ else _] => is_var c; destruct c
          | |- context [match ?o with Some _ => _ | None => _ end] =>
              is_var o; destruct o
          | |- context [if PyFloat.ge ?a ?b then _ else _] =>
              destruct (PyFloat.ge a b) eqn:?
          | |- context [if PyFloat.gt ?a ?b then _ else _] =>
              destruct (PyFloat.gt a b) eqn:?
          | |- context [if PyFloat.lt ?a ?b then _ else _] =>
              destruct (PyFloat.lt a b) eqn:?
          | |- context [if PyFloat.le ?a ?b then _ else _] =>
              destruct (PyFloat.le a b) eqn:?
          | |- context [if (?a >=? ?b)%Z then _ else _] =>
              destruct (a >=? b)%Z eqn:?
          end);
  cbv beta iota.

(** Evaluates [tick] on an object and a snapshot given by their fields, down
    to the numeric guards. *)
Ltac fsm_eval :=
  cbv beta iota zeta delta
      [tick dispatch _handle_init _handle_idle _handle_search _handle_acquire
       _handle_align _handle_descend _handle_touchdown _handle_abort
       _handle_failsafe _handle_target_lost _transition_to _make_output
       _compute_gain set_abort_reason set_prev_state set_state
       set_consecutive_detections set_last_target_time
       state_in state_eqb existsb negb orb andb fst snd
       _state _prev_state _acquire_confidence _align_error_m
       _abort_landability _touchdown_altitude_m _max_variance
       _consecutive_frames_for_acquire _target_lost_timeout_s
       _consecutive_detections _last_target_time _abort_reason
       target_visible target_confidence lateral_error_m altitude_m
       landability_score mavlink_connected camera_connected arm_command
       abort_command timestamp human_present variance
       state publish_landing_target abort_reason confidence_gain state_changed
       edge links_and_no_abort calm confident_detection same_config
       counter_ok reason_fits abort_reasons] in *.

(** Case analysis on the state and on the four flags the priority rules
    read, then evaluation. *)
Ltac fsm_flags st mav cam abt hum :=
  destruct st, mav, cam, abt, hum; fsm_eval.

(** X1: every tick moves along an edge of the landing sequence: it stays, it
    takes a safety exit to Abort or Failsafe, or it takes one forward or
    fall-back step; no stage is skipped and no terminal state is left for a
    flying one. *)
Theorem tick_respects_graph (f : LandingFSM) (i : SystemInputs) :
  edge (_state f) (_state (fst (tick f i))) = true.
Proof.
  destruct f as [st pst ? ? ? ? ? ? ? ? lt ?].
  destruct i as [tv ? ? ? ? mav cam arm abt ? hum ?].
  fsm_flags st mav cam abt hum; try reflexivity; split_guards; reflexivity.
Qed.

(** X2: no tick ends in Init, and from Init a tick with both links up and no
    abort command always reaches Idle: the machine is in Init only before its
    first tick and after a reset. *)
Theorem init_lasts_one_tick (f : LandingFSM) (i : SystemInputs) :
  _state (fst (tick f i)) <> INIT /\
  (_state f = INIT -> links_and_no_abort i = true ->
   _state (fst (tick f i)) = IDLE /\ state_changed (snd (tick f i)) = true).
Proof.
  destruct f as [st pst ? ? ? ? ? ? ? ? lt ?].
  destruct i as [tv ? ? ? ? mav cam arm abt ? hum ?].
  split.
  - fsm_flags st mav cam abt hum; try discriminate; split_guards; discriminate.
  - intros Hs H. fsm_eval. subst st.
    destruct mav, cam, abt; try discriminate H. destruct hum; split; reflexivity.
Qed.

Lemma init_lasts_one_tick_witness :
  _state (fst (tick default_fsm (Scenario.human 0))) = IDLE /\
  state_changed (snd (tick default_fsm (Scenario.human 0))) = true.
Proof.
  apply (proj2 (init_lasts_one_tick default_fsm (Scenario.human 0)));
    reflexivity.
Defined.

(** [tick] never touches the thresholds of the object. *)
Lemma tick_keeps_config (f : LandingFSM) (i : SystemInputs) :
  same_config f (fst (tick f i)).
Proof.
  destruct f as [st pst ? ? ? ? ? ? ? ? lt ?].
  destruct i as [tv ? ? ? ? mav cam arm abt ? hum ?].
  fsm_flags st mav cam abt hum; try solve [repeat split];
    split_guards; repeat split.
Qed.

(** One qualifying tick in Search: the counter goes up by one, and the
    machine moves to Acquire, counter cleared, once it reaches the required
    number of frames. *)
Lemma tick_search_hit (f : LandingFSM) (i : SystemInputs) :
  _state f = SEARCH -> calm i = true -> confident_detection f i = true ->
  let c := _consecutive_detections f + 1 in
  let f' := fst (tick f i) in
  if c >=? _consecutive_frames_for_acquire f
  then _state f' = ACQUIRE /\ _consecutive_detections f' = 0
  else _state f' = SEARCH /\ _consecutive_detections f' = c.
Proof.
  destruct f as [st pst ? ? ? ? ? ? ? ? lt ?].
  destruct i as [tv ? ? ? ? mav cam arm abt ? hum ?].
  intros Hs Hc Hd c' f'. subst c' f'. fsm_eval. subst st.
  destruct mav, cam, abt, hum; try discriminate Hc. cbv beta iota.
  destruct tv; try discriminate Hd. cbv beta iota in Hd |- *.
  unfold PyFloat.ge in *. rewrite Hd.
  destruct (_ >=? _); split; reflexivity.
Qed.

(** X3: in Search, starting from a cleared counter, a run of ticks that all
    show a confident detection (links up, no abort, no human) stays in Search
    while it is shorter than consecutive_frames_for_acquire, counting the
    frames, and is in Acquire with the counter cleared when its length equals
    that number. *)
Theorem search_needs_consecutive_frames
  (f : LandingFSM) (ins : list SystemInputs)
  (Hs : _state f = SEARCH) (Hc : _consecutive_detections f = 0)
  (Hgood : Forall (fun i => calm i = true /\ confident_detection f i = true) ins) :
  let n := Z.of_nat (List.length ins) in
  let f' := fst (run f ins) in
  (n < _consecutive_frames_for_acquire f ->
   _state f' = SEARCH /\ _consecutive_detections f' = n) /\
  (0 < n -> n = _consecutive_frames_for_acquire f ->
   _state f' = ACQUIRE /\ _consecutive_detections f' = 0).
Proof.
  assert (Gen : forall ins f c,
             _state f = SEARCH -> _consecutive_detections f = c ->
             Forall (fun i => calm i = true /\ confident_detection f i = true) ins ->
             let n := Z.of_nat (List.length ins) in
             let f' := fst (run f ins) in
             (c + n < _consecutive_frames_for_acquire f ->
              _state f' = SEARCH /\ _consecutive_detections f' = c + n) /\
             (0 < n -> c + n = _consecutive_frames_for_acquire f ->
              _state f' = ACQUIRE /\ _consecutive_detections f' = 0)).
  { clear. induction ins as [| i rest IH]; intros f c Hs Hc Hgood n f'.
    - subst n f'. simpl. split; [intros _; split; [exact Hs | lia] | lia].
    - inversion Hgood as [| ? ? (Hcalm & Hdet) Hrest]; subst.
      pose proof (tick_search_hit f i Hs Hcalm Hdet) as Hstep.
      pose proof (tick_keeps_config f i) as (Ea & _ & _ & _ & _ & En & _).
      cbv zeta in Hstep. subst f'. rewrite run_cons. cbn [fst].
      set (f1 := fst (tick f i)) in *.
      assert (Hrest' : Forall (fun i0 => calm i0 = true /\
                                         confident_detection f1 i0 = true) rest).
      { eapply Forall_impl; [| exact Hrest]. intros a (H1 & H2). split; auto.
        unfold confident_detection in *. rewrite <- Ea. exact H2. }
      subst n. rewrite length_cons, Nat2Z.inj_succ.
      destruct (_consecutive_detections f + 1 >=? _consecutive_frames_for_acquire f)
        eqn:Hge.
      + destruct Hstep as (S1 & C1). split; [lia |].
        intros _ Hn.
        assert (Hr : rest = []).
        { destruct rest; [reflexivity |]. rewrite length_cons in Hn. lia. }
        subst rest. simpl. split; assumption.
      + destruct Hstep as (S1 & C1).
        destruct (IH f1 (_consecutive_detections f + 1) S1 C1 Hrest') as (A & B).
        rewrite <- En in A, B. split.
        * intros Hlt. replace (_consecutive_detections f + Z.succ (Z.of_nat (List.length rest)))
            with (_consecutive_detections f + 1 + Z.of_nat (List.length rest)) by lia.
          apply A. lia.
        * intros _ Hn. apply B; [| lia].
          destruct rest; [simpl in Hn; lia | rewrite length_cons; lia]. }
  intros n f'. destruct (Gen ins f 0 Hs Hc Hgood) as (A & B).
  split; [intros H; apply A; lia | intros H0 H; apply B; lia].
Qed.

Lemma search_needs_consecutive_frames_witness :
  _state (fst (run Scenario.searching
                   [Scenario.sighted 1; Scenario.sighted 2; Scenario.sighted 3;
                    Scenario.sighted 4])) = SEARCH /\
  _consecutive_detections
    (fst (run Scenario.searching
              [Scenario.sighted 1; Scenario.sighted 2; Scenario.sighted 3;
               Scenario.sighted 4])) = 4.
Proof.
  apply (proj1 (search_needs_consecutive_frames Scenario.searching
                  [Scenario.sighted 1; Scenario.sighted 2; Scenario.sighted 3;
                   Scenario.sighted 4] eq_refl eq_refl
                  ltac:(repeat constructor))).
  reflexivity.
Defined.

Lemma tick_keeps_counter_ok (f : LandingFSM) (i : SystemInputs) :
  counter_ok f -> counter_ok (fst (tick f i)).
Proof.
  destruct f as [st pst ? ? ? ? ? n ? c lt ?].
  destruct i as [tv ? ? ? ? mav cam arm abt ? hum ?].
  intros H.
  fsm_flags st mav cam abt hum; destruct H as (H0 & H1 & H2);
    try solve [repeat split; auto; discriminate];
    split_guards; repeat split; auto; try discriminate; try lia;
    try (specialize (H2 eq_refl)); lia.
Qed.

(** X4: on every instance a driver can produce, the detection counter is
    never negative, is zero or below consecutive_frames_for_acquire, and is
    zero in every state other than Search, Abort and Failsafe; so each entry
    into Search starts counting from zero. *)
Theorem detection_counter_invariant (f : LandingFSM) (Hr : reachable f) :
  0 <= _consecutive_detections f /\
  (_consecutive_detections f = 0 \/
   _consecutive_detections f < _consecutive_frames_for_acquire f) /\
  (state_in (_state f) [SEARCH; ABORT; FAILSAFE] = false ->
   _consecutive_detections f = 0).
Proof.
  change (counter_ok f).
  induction Hr as [c e l t v n s0 | f i Hr IH | f Hr IH].
  - unfold counter_ok. simpl. repeat split; auto. lia.
  - now apply tick_keeps_counter_ok.
  - unfold counter_ok. simpl. repeat split; auto. lia.
Qed.

Lemma detection_counter_invariant_witness :
  0 <= _consecutive_detections Scenario.aligning /\
  (_consecutive_detections Scenario.aligning = 0 \/
   _consecutive_detections Scenario.aligning
   < _consecutive_frames_for_acquire Scenario.aligning) /\
  (state_in (_state Scenario.aligning) [SEARCH; ABORT; FAILSAFE] = false ->
   _consecutive_detections Scenario.aligning = 0).
Proof.
  apply (detection_counter_invariant Scenario.aligning).
  apply run_reachable, reach_init.
Defined.

Lemma tick_keeps_reason_fits (f : LandingFSM) (i : SystemInputs) :
  reason_fits (_state f) (_abort_reason f) ->
  reason_fits (_state (fst (tick f i))) (_abort_reason (fst (tick f i))).
Proof.
  destruct f as [st pst ? ? ? ? ? n ? c lt r].
  destruct i as [tv ? ? ? ? mav cam arm abt ? hum ?].
  intros H.
  fsm_flags st mav cam abt hum; auto;
    try solve [eexists; split; [reflexivity | simpl; auto]];
    split_guards; auto;
    try solve [eexists; split; [reflexivity | simpl; auto]].
Qed.

(** X5: on every instance a driver can produce, the abort reason is unset
    exactly outside Abort and Failsafe; in Failsafe it is "link_lost" and in
    Abort it is one of "external_command", "human_present" and
    "low_landability". *)
Theorem abort_reason_matches_state (f : LandingFSM) (Hr : reachable f) :
  match _state f with
  | FAILSAFE => _abort_reason f = Some "link_lost"%string
  | ABORT => exists x, _abort_reason f = Some x /\
                       In x ["external_command"; "human_present";
                             "low_landability"]%string
  | _ => _abort_reason f = None
  end.
Proof.
  change (reason_fits (_state f) (_abort_reason f)).
  induction Hr as [c e l t v n s0 | f i Hr IH | f Hr IH].
  - reflexivity.
  - now apply tick_keeps_reason_fits.
  - reflexivity.
Qed.

Lemma abort_reason_matches_state_witness :
  _abort_reason Scenario.landed = None.
Proof.
  apply (abort_reason_matches_state Scenario.landed).
  apply run_reachable, reach_init.
Defined.

(** X6: in Align or Descend, on a tick without target on which no priority
    rule fires, the loss is timed from the stored start (or from this tick when
    no timer runs): once timestamp - start exceeds target_lost_timeout_s the
    machine falls back to Search with the timer cleared and reports the
    change; until then it stays where it is with the timer holding the
    start. *)
Theorem target_lost_timeout_tick (f : LandingFSM) (i : SystemInputs)
  (Hst : state_in (_state f) [ALIGN; DESCEND] = true)
  (Hcalm : calm i = true) (Hlost : target_visible i = false) :
  let start := match _last_target_time f with
               | Some t0 => t0
               | None => timestamp i
               end in
  let f' := fst (tick f i) in
  if PyFloat.gt (timestamp i - start)%float (_target_lost_timeout_s f)
  then _state f' = SEARCH /\ _last_target_time f' = None /\
       state_changed (snd (tick f i)) = true
  else _state f' = _state f /\ _last_target_time f' = Some start /\
       state_changed (snd (tick f i)) = false.
Proof.
  destruct f as [st pst ? ? ? ? ? n ? c lt r].
  destruct i as [tv ? ? ? ? mav cam arm abt ts hum ?].
  unfold calm, links_and_no_abort in Hcalm. simpl in Hst, Hcalm, Hlost.
  subst tv.
  destruct mav, cam, abt, hum; try discriminate Hcalm.
  destruct st; try discriminate Hst; destruct lt as [t0 |]; fsm_eval;
    match goal with
    | |- context [PyFloat.gt ?a ?b] => destruct (PyFloat.gt a b)
    end; repeat split.
Qed.

Lemma target_lost_timeout_tick_witness :
  _state (fst (tick Scenario.aligning (Scenario.unsighted 7))) = ALIGN /\
  _last_target_time (fst (tick Scenario.aligning (Scenario.unsighted 7)))
  = Some 7%float /\
  state_changed (snd (tick Scenario.aligning (Scenario.unsighted 7))) = false.
Proof.
  exact (target_lost_timeout_tick Scenario.aligning (Scenario.unsighted 7)
           eq_refl eq_refl eq_refl).
Defined.

(** X7: a tick that asks for LANDING_TARGET to be published ran with both
    links connected and without abort command, and ended in Acquire, Align or
    Descend; it can have run with a human present only when it started in
    Idle, where the human-present rule does not apply. *)
Theorem publish_implies_links_up (f : LandingFSM) (i : SystemInputs)
  (Hpub : publish_landing_target (snd (tick f i)) = true) :
  links_and_no_abort i = true /\
  state_in (_state (fst (tick f i))) [ACQUIRE; ALIGN; DESCEND] = true /\
  (human_present i = true -> _state f = IDLE).
Proof.
  destruct f as [st pst ? ? ? ? ? n ? c lt r].
  destruct i as [tv ? ? ? ? mav cam arm abt ts hum ?].
  revert Hpub.
  fsm_flags st mav cam abt hum; try discriminate;
    split_guards; intros Hpub; try discriminate Hpub;
    repeat split; intros; discriminate.
Qed.

Lemma publish_implies_links_up_witness :
  links_and_no_abort (Scenario.sighted 1) = true /\
  state_in (_state (fst (tick Scenario.aligning (Scenario.sighted 1))))
           [ACQUIRE; ALIGN; DESCEND] = true /\
  (human_present (Scenario.sighted 1) = true -> _state Scenario.aligning = IDLE).
Proof.
  exact (publish_implies_links_up Scenario.aligning (Scenario.sighted 1) eq_refl).
Defined.

(** A NaN never compares below or equal, and only +inf is at least +inf. *)
Lemma nan_leb_l (x y : float) : is_nan x = true -> (x <=? y)%float = false.
Proof.
  intros H. apply FloatFacts.is_nan_Prim2SF in H. rewrite leb_spec, H.
  reflexivity.
Qed.

Lemma infinity_leb (y : float) :
  (infinity <=? y)%float = true -> is_finite y = false.
Proof.
  rewrite leb_spec. change (Prim2SF infinity) with (S754_infinity false).
  unfold is_finite, is_infinity. rewrite eqb_spec, abs_spec.
  change (Prim2SF infinity) with (S754_infinity false).
  destruct (Prim2SF y) as [s | s | | s m e]; simpl; try discriminate.
  destruct s; simpl; try discriminate. intros _. now rewrite orb_true_r.
Qed.

(** X8: while the lateral error is unknown (NaN, or the default +inf against
    a finite align_error_m), a tick in Align with the target in view never
    advances to Descend: it stays in Align or aborts. *)
Theorem align_waits_for_known_error (f : LandingFSM) (i : SystemInputs)
  (Hst : _state f = ALIGN) (Hcalm : calm i = true)
  (Hvis : target_visible i = true)
  (Hunknown : is_nan (lateral_error_m i) = true \/
              (lateral_error_m i = infinity /\
               is_finite (_align_error_m f) = true)) :
  state_in (_state (fst (tick f i))) [ALIGN; ABORT] = true.
Proof.
  assert (Hle : PyFloat.le (lateral_error_m i) (_align_error_m f) = false).
  { unfold PyFloat.le. destruct Hunknown as [Hn | (Hinf & Hfin)].
    - now apply nan_leb_l.
    - rewrite Hinf. destruct (infinity <=? _align_error_m f)%float eqn:E;
        [| reflexivity].
      apply infinity_leb in E. congruence. }
  destruct f as [st pst ? ae ? ? ? n ? c lt r].
  destruct i as [tv ? le ? ? mav cam arm abt ts hum ?].
  fsm_eval. subst st tv.
  destruct mav, cam, abt, hum; try discriminate Hcalm. cbv beta iota.
  rewrite Hle. split_guards; reflexivity.
Qed.

Lemma align_waits_for_known_error_witness :
  state_in (_state (fst (tick Scenario.aligning (Scenario.sighted 1))))
           [ALIGN; ABORT] = true.
Proof.
  apply (align_waits_for_known_error Scenario.aligning (Scenario.sighted 1)
           eq_refl eq_refl eq_refl).
  right. split; reflexivity.
Defined.

(** X20: a landability score below abort_landability wins over progress: in
    Acquire, Align or Descend, on a tick with the target in view on which no
    priority rule fires, the machine aborts with reason "low_landability" and
    stops publishing, whatever variance, lateral error and altitude say. *)
Theorem low_landability_beats_progress (f : LandingFSM) (i : SystemInputs)
  (Hst : state_in (_state f) [ACQUIRE; ALIGN; DESCEND] = true)
  (Hcalm : calm i = true) (Hvis : target_visible i = true)
  (Hlow : PyFloat.lt (landability_score i) (_abort_landability f) = true) :
  _state (fst (tick f i)) = ABORT /\
  abort_reason (snd (tick f i)) = Some "low_landability"%string /\
  publish_landing_target (snd (tick f i)) = false /\
  state_changed (snd (tick f i)) = true.
Proof.
  destruct f as [st pst ? ? al ? ? n ? c lt r].
  destruct i as [tv ? ? ? ls mav cam arm abt ts hum ?].
  unfold calm, links_and_no_abort in Hcalm. simpl in Hst, Hcalm, Hvis, Hlow.
  subst tv.
  destruct mav, cam, abt, hum; try discriminate Hcalm.
  destruct st; try discriminate Hst; fsm_eval; rewrite Hlow; repeat split.
Qed.

Lemma low_landability_beats_progress_witness :
  _state (fst (tick Scenario.aligning
                    (mkInputs true 0.8 0.1 100.0 0.2 true true true false 1
                              false 0.3))) = ABORT.
Proof.
  apply (low_landability_beats_progress Scenario.aligning
           (mkInputs true 0.8 0.1 100.0 0.2 true true true false 1 false 0.3)
           eq_refl eq_refl eq_refl eq_refl).
Defined.

End FsmMore.

(* ========================================================================= *)
(** * Further properties of the pose filters *)

Module FilterMore.

Import Filtering SmootherReach.

Local Close Scope R_scope.
Local Open Scope float_scope.

(** [update] keeps a well-formed smoother well-formed. *)
Lemma update_keeps_well_formed (f f' : ExpSmoother) (m : vec3) (mv ts : float)
      (p : FilteredPose) :
  well_formed f -> exp_update f m mv ts = Some (f', p) -> well_formed f'.
Proof.
  unfold well_formed, exp_update. intros (Ha & Hb & Hw).
  destruct (_state f) as [s |]; destruct (_variance f) as [v |];
    destruct (_last_time f) as [l |]; try contradiction.
  - destruct (_is_outlier f m); intros E; injection E as <- <-; simpl; auto.
  - intros E. injection E as <- <-. simpl. auto.
Qed.

(** Every smoother a caller can hold is well-formed. *)
Lemma reachable_well_formed (f : ExpSmoother) : reachable f -> well_formed f.
Proof.
  induction 1 as [a t v f E | f m mv ts f' p Hr IH E | f Hr IH].
  - unfold exp_init in E.
    destruct (PyFloat.lt 0 a) eqn:H0; destruct (PyFloat.le a 1) eqn:H1;
      simpl in E; try discriminate E.
    injection E as <-. unfold well_formed. simpl. auto.
  - eapply update_keeps_well_formed; eauto.
  - destruct IH as (Ha & Hb & _). unfold well_formed. simpl. auto.
Qed.

(** X9: on every smoother obtained from the constructor by updates and
    resets, [update] returns (the TypeError on an unset variance cannot
    happen), and the pose it returns is valid and stamped with the timestamp
    of the call; state, variance and last timestamp are always set together
    and alpha stays in (0, 1]. *)
Theorem smoother_update_never_raises
  (f : ExpSmoother) (m : vec3) (mv ts : float) (Hr : reachable f) :
  well_formed f /\
  exists f' p,
    exp_update f m mv ts = Some (f', p) /\
    is_valid p = true /\ timestamp p = ts /\
    _state f' = Some (position p) /\ _variance f' = Some (variance p) /\
    _velocity f' = velocity p.
Proof.
  pose proof (reachable_well_formed f Hr) as Hw. split; [exact Hw |].
  destruct Hw as (_ & _ & Hw). unfold exp_update.
  destruct (_state f) as [s |]; destruct (_variance f) as [v |];
    destruct (_last_time f) as [l |]; try contradiction.
  - destruct (_is_outlier f m); do 2 eexists; repeat split.
  - do 2 eexists; repeat split.
Qed.

Lemma smoother_update_never_raises_witness :
  exists f' p,
    exp_update FilterScenario.fresh_smoother (Vec3 1 2 3) 0.1 0 = Some (f', p) /\
    is_valid p = true /\ timestamp p = 0 /\
    _state f' = Some (position p) /\ _variance f' = Some (variance p) /\
    _velocity f' = velocity p.
Proof.
  apply (proj2 (smoother_update_never_raises FilterScenario.fresh_smoother
                  (Vec3 1 2 3) 0.1 0
                  (reach_init 0.35 4.0 1.0 FilterScenario.fresh_smoother
                              eq_refl))).
Defined.

(** X10: whatever a smoother went through, after [reset] the next update
    adopts the measurement as position, restarts the variance at the
    configured initial variance and reports zero velocity, exactly as the
    first update of a new smoother with the same parameters. *)
Theorem reset_then_update_restarts
  (f : ExpSmoother) (m : vec3) (mv ts : float) :
  exp_update (exp_reset f) m mv ts =
  Some (mkExp (_alpha f) (_outlier_threshold f) (_initial_variance f)
              (Some m)
              (Some (Vec3 (_initial_variance f) (_initial_variance f)
                          (_initial_variance f)))
              (Some ts) (Vec3 0 0 0),
        mkPose m (Vec3 (_initial_variance f) (_initial_variance f)
                       (_initial_variance f))
               (Vec3 0 0 0) true ts)
  /\ (forall f0, exp_init (_alpha f) (_outlier_threshold f)
                          (_initial_variance f) = Some f0 ->
                 exp_update (exp_reset f) m mv ts = exp_update f0 m mv ts).
Proof.
  split; [reflexivity |].
  intros f0 E. unfold exp_init in E.
  destruct (negb _); [discriminate E | injection E as <-]. reflexivity.
Qed.

Lemma reset_then_update_restarts_witness :
  exp_update (exp_reset FilterScenario.half_smoother_at_one) (Vec3 4 5 6) 0.1 9
  = exp_update (mkExp 0.5 4 1 None None None (Vec3 0 0 0)) (Vec3 4 5 6) 0.1 9.
Proof.
  apply (proj2 (reset_then_update_restarts FilterScenario.half_smoother_at_one
                  (Vec3 4 5 6) 0.1 9)).
  reflexivity.
Defined.

(** X11: on an initialised Kalman filter, a time step passed to [update] that
    differs from the stored one replaces it for good: the returned object
    keeps the new [dt], with the three velocity-coupling entries of [F] set to
    it, so later calls without [dt] keep using it; a call without [dt], or
    with the stored value, leaves both as they were. *)
Theorem kalman_dt_override_persists
  (inv : matrix -> option matrix) (kf kf' : KalmanFilter3D) (m : vec3)
  (dt : option float) (p : FilteredPose)
  (Hinit : _initialized kf = true)
  (Hup : kalman_update inv kf m dt = Some (kf', p)) :
  match dt with
  | Some d =>
      if PyFloat.ne d (_dt kf)
      then _dt kf' = d /\
           _F kf' = set_entry (set_entry (set_entry (_F kf) 0 3 d) 1 4 d) 2 5 d
      else _dt kf' = _dt kf /\ _F kf' = _F kf
  | None => _dt kf' = _dt kf /\ _F kf' = _F kf
  end /\
  _H kf' = _H kf /\ _Q kf' = _Q kf /\ _R kf' = _R kf /\
  _initialized kf' = true.
Proof.
  unfold kalman_update in Hup. rewrite Hinit in Hup. simpl in Hup.
  destruct dt as [d |]; [destruct (PyFloat.ne d (_dt kf)) |];
    match type of Hup with
    | context [inv ?S] => destruct (inv S)
    end; try discriminate Hup; injection Hup as <- _; repeat split.
Qed.

Lemma kalman_dt_override_persists_witness :
  exists kf' p,
    kalman_update FilterScenario.identity_inverse FilterScenario.tracking_kalman
                  (Vec3 1 0 0) (Some 0.5) = Some (kf', p) /\
    _dt kf' = 0.5 /\ entry (_F kf') 0 3 = 0.5 /\
    entry (_F kf') 1 4 = 0.5 /\ entry (_F kf') 2 5 = 0.5.
Proof.
  destruct (kalman_update FilterScenario.identity_inverse
              FilterScenario.tracking_kalman (Vec3 1 0 0) (Some 0.5))
    as [[kf' p] |] eqn:E; [| discriminate E].
  exists kf', p. split; [reflexivity |].
  destruct (kalman_dt_override_persists FilterScenario.identity_inverse
              FilterScenario.tracking_kalman kf' (Vec3 1 0 0) (Some 0.5) p
              eq_refl E) as ((Hdt & HF) & _).
  rewrite HF. repeat split; assumption || reflexivity.
Defined.

(** X12: after [reset] the next update of a Kalman filter adopts the
    measurement as position with zero velocity and unit variance, runs no
    predict step, and ignores the [dt] argument: the stored time step and
    transition matrix are those from before the reset. *)
Theorem kalman_reset_then_update
  (inv : matrix -> option matrix) (kf : KalmanFilter3D) (m : vec3)
  (dt : option float) :
  exists kf' p,
    kalman_update inv (kalman_reset kf) m dt = Some (kf', p) /\
    position p = m /\ velocity p = Vec3 0 0 0 /\ variance p = Vec3 1 1 1 /\
    is_valid p = true /\
    _x kf' = [c0 m; c1 m; c2 m; 0; 0; 0] /\
    _dt kf' = _dt kf /\ _F kf' = _F kf /\ _initialized kf' = true.
Proof.
  do 2 eexists. split; [reflexivity |]. destruct m. repeat split.
Qed.

End FilterMore.

(* ========================================================================= *)
(** * Further properties of the safety supervisor *)

Module SafetyMore.

Import Safety.

Local Close Scope float_scope.
Local Open Scope R_scope.






End SafetyMore.

(* ========================================================================= *)
(** * Properties of the guidance law *)

Module GuidanceMore.

Import PyArith Guidance SFClass FloatFacts FloatOrder.
Local Open Scope float_scope.

(** The product of a negated positive gain and an offset carries the sign
    opposite to the offset's. *)
Lemma negated_gain_sign (g t : float) :
  (0 <? g) = true ->
  ((0 <? t) = true -> (- g * t <=? 0) = true) /\
  ((t <? 0) = true -> (0 <=? - g * t) = true).
Proof.
  rewrite !ltb_spec, !leb_spec, mul_spec, opp_spec.
  change (Prim2SF 0) with (S754_zero false).
  unfold SFltb, SFleb.
  destruct (Prim2SF g) as [sg | sg | | sg mg eg]; simpl; try discriminate;
    destruct sg; try discriminate; intros _.
  - split; destruct (Prim2SF t) as [st | st | | st mt et]; simpl;
      try discriminate; destruct st; try discriminate; reflexivity.
  - split; destruct (Prim2SF t) as [st | st | | st mt et]; simpl;
      try discriminate; destruct st; try discriminate; try reflexivity; intros _.
    + pose proof (binary_round_aux_signed true (Zpos (mg * mt)) (eg + et)
                    loc_Exact ltac:(lia)) as S.
      destruct (binary_round_aux prec emax true (Zpos (mg * mt)) (eg + et) loc_Exact)
        as [s | s | | s m e]; simpl in S; try contradiction; subst; reflexivity.
    + pose proof (binary_round_aux_signed false (Zpos (mg * mt)) (eg + et)
                    loc_Exact ltac:(lia)) as S.
      destruct (binary_round_aux prec emax false (Zpos (mg * mt)) (eg + et) loc_Exact)
        as [s | s | | s m e]; simpl in S; try contradiction; subst; reflexivity.
Qed.

Section Setpoint.

Variable libm_pow : float -> float -> float.
Variable self : GuidanceController.
Variable confidence : float.
Hypothesis Hgain : PyFloat.gt (_lateral_gain self * confidence) 0 = true.
Hypothesis Hrate : PyFloat.le 0 (_descent_rate self) = true.
Hypothesis Hratef : is_finite (_descent_rate self) = true.
Hypothesis Hc0 : PyFloat.le 0 confidence = true.
Hypothesis Hc1 : PyFloat.le confidence 1 = true.

(** X17: [compute_setpoint] on binary64, for a positive gain
    lateral_gain * confidence, a finite non-negative descent rate and a
    confidence in [0, 1].  It raises only when a squared offset overflows.
    Otherwise vx and vy never point away from the target (vx <= 0 for a
    positive x offset, vx >= 0 for a negative one, likewise vy); vz is
    descent_rate * 0.3 or descent_rate * confidence and lies between 0 and
    descent_rate; the yaw rate is 0.  An offset with a NaN component is
    treated as aligned: vz is the full descent_rate * confidence while the
    lateral command is NaN. *)
Theorem setpoint_closes_offset (target_x target_y target_z current_altitude : float) :
  match compute_setpoint libm_pow self target_x target_y target_z
                         current_altitude confidence with
  | None => pow_two libm_pow target_x = None \/ pow_two libm_pow target_y = None
  | Some sp =>
      (PyFloat.gt target_x 0 = true -> PyFloat.le (vx sp) 0 = true) /\
      (PyFloat.lt target_x 0 = true -> PyFloat.le 0 (vx sp) = true) /\
      (PyFloat.gt target_y 0 = true -> PyFloat.le (vy sp) 0 = true) /\
      (PyFloat.lt target_y 0 = true -> PyFloat.le 0 (vy sp) = true) /\
      (vz sp = _descent_rate self * 0.3 \/ vz sp = _descent_rate self * confidence) /\
      PyFloat.le 0 (vz sp) = true /\ PyFloat.le (vz sp) (_descent_rate self) = true /\
      yaw_rate sp = 0 /\
      (is_nan target_x || is_nan target_y = true ->
       vz sp = _descent_rate self * confidence /\
       is_nan (vx sp) || is_nan (vy sp) = true)
  end.
Proof.
  unfold compute_setpoint.
  destruct (pow_two libm_pow target_x) as [sx |] eqn:Ex; [| now left].
  destruct (pow_two libm_pow target_y) as [sy |] eqn:Ey; [| now right].
  cbn [vx vy vz yaw_rate].
  unfold PyFloat.gt, PyFloat.lt, PyFloat.le in *.
  destruct (negated_gain_sign _ target_x Hgain) as (X1 & X2).
  destruct (negated_gain_sign _ target_y Hgain) as (Y1 & Y2).
  destruct (mul_unit_pos _ 0.3 Hratef Hrate eq_refl eq_refl) as (A1 & A2).
  destruct (mul_unit_pos _ confidence Hratef Hrate Hc0 Hc1) as (B1 & B2).
  repeat match goal with |- _ /\ _ => split end; try assumption; try reflexivity.
  - destruct (_ <? PrimFloat.sqrt (sx + sy)); auto.
  - destruct (_ <? PrimFloat.sqrt (sx + sy)); auto.
  - destruct (_ <? PrimFloat.sqrt (sx + sy)); auto.
  - intros Hn.
    assert (Hs : is_nan (sx + sy) = true).
    { apply orb_prop in Hn. destruct Hn as [Hn | Hn].
      - unfold pow_two in Ex. rewrite Hn in Ex. injection Ex as <-.
        now apply nan_add_l.
      - unfold pow_two in Ey. rewrite Hn in Ey. injection Ey as <-.
        now apply nan_add_r. }
    rewrite (nan_ltb_r _ _ (nan_sqrt _ Hs)). split; [reflexivity |].
    apply orb_prop in Hn. destruct Hn as [Hn | Hn].
    + now rewrite (nan_mul_r _ _ Hn).
    + rewrite (nan_mul_r _ _ Hn). apply orb_true_r.
Qed.

End Setpoint.

Lemma setpoint_closes_offset_witness :
  compute_setpoint rounded_pow default_controller 2 (-1) 5 5 1
  = Some (mkSetpoint (-1) 0.5 0.09 0) /\
  PyFloat.le (-1) 0 = true.
Proof.
  split; [reflexivity |].
  pose proof (setpoint_closes_offset rounded_pow default_controller 1
                eq_refl eq_refl eq_refl eq_refl eq_refl 2 (-1) 5 5) as H.
  change (compute_setpoint rounded_pow default_controller 2 (-1) 5 5 1)
    with (Some (mkSetpoint (-1) 0.5 0.09 0)) in H.
  exact (proj1 H eq_refl).
Defined.

End GuidanceMore.

(* ========================================================================= *)
(** * Properties of the rate limiter *)

Module ThrottlingMore.

Import Throttling.

Local Close Scope R_scope.
Local Open Scope float_scope.

(** A refused call leaves the limiter as it was; a granted one records the
    clock reading. *)
Lemma should_run_cases (l : RateLimiter) (t : float) :
  (snd (should_run l t) = false /\ fst (should_run l t) = l) \/
  (snd (should_run l t) = true /\
   PyFloat.ge (t - _last_time l) (_interval_s l) = true /\
   fst (should_run l t) = mkLimiter (_interval_s l) t).
Proof.
  unfold should_run. destruct (PyFloat.ge _ _) eqn:E; [right | left]; auto.
Qed.

(** A run of refused calls does not change the limiter. *)
Lemma poll_refused (ts : list float) (l : RateLimiter) :
  Forall (fun b => b = false) (snd (poll l ts)) -> fst (poll l ts) = l.
Proof.
  revert l. induction ts as [| t rest IH]; intros l H; [reflexivity |].
  simpl in *. destruct (should_run l t) as [l1 b] eqn:E.
  destruct (poll l1 rest) as [l2 bs] eqn:E2. simpl in *.
  inversion H as [| ? ? Hb Hrest]; subst.
  destruct (should_run_cases l t) as [(_ & Hl) | (Hb & _)];
    rewrite E in *; simpl in *; [| discriminate Hb].
  subst l1. specialize (IH l). rewrite E2 in IH. now apply IH.
Qed.

(** X19: between two consecutive grants of a rate limiter at least the
    interval has passed on the caller's clock: if [should_run] answers true at
    reading [t], then answers false at every reading in [between], and then
    answers true at [t'], the difference t' - t is at least the interval
    (1 / rate_hz); the refused calls in between leave the limiter
    untouched. *)
Theorem grants_are_spaced
  (l : RateLimiter) (t t' : float) (between : list float)
  (Hfirst : snd (should_run l t) = true)
  (Hrefused : Forall (fun b => b = false)
                     (snd (poll (fst (should_run l t)) between)))
  (Hnext : snd (should_run (fst (poll (fst (should_run l t)) between)) t')
           = true) :
  PyFloat.ge (t' - t) (_interval_s l) = true /\
  fst (poll (fst (should_run l t)) between) = mkLimiter (_interval_s l) t /\
  _last_time (fst (should_run (fst (poll (fst (should_run l t)) between)) t'))
  = t'.
Proof.
  destruct (should_run_cases l t) as [(Hb & _) | (_ & _ & Hl)];
    [rewrite Hfirst in Hb; discriminate Hb |].
  rewrite (poll_refused between _ Hrefused) in *. rewrite Hl in *.
  destruct (should_run_cases (mkLimiter (_interval_s l) t) t')
    as [(Hb & _) | (_ & Hge & Hl')];
    [rewrite Hnext in Hb; discriminate Hb |].
  simpl in Hge. repeat split; [exact Hge |]. rewrite Hl'. reflexivity.
Qed.

Lemma grants_are_spaced_witness :
  PyFloat.ge (100.06 - 100) 0.05 = true.
Proof.
  exact (proj1 (grants_are_spaced (mkLimiter 0.05 0) 100 100.06
                                  [100.01; 100.03] eq_refl
                                  ltac:(repeat constructor) eq_refl)).
Defined.

End ThrottlingMore.
